(** * MDSM: session and client layer in front of an HTTP pipeline

    A shallow embedding of [mdsm.js] and [Classes/Session.js] and the
    properties their specification states about them.

    JavaScript values are modelled the way the code uses them: strings as
    [string] with [charAt]/[substring] on integer indices, numbers as
    integer-valued doubles with [NaN], thrown exceptions as an explicit
    completion, [Session] objects in a store addressed by reference, and
    the built-ins of the platform ([crypto], [JSON]) as an interface. *)

From Stdlib Require Import ZArith Lia Ascii String.
From stdpp Require Import base option list strings pretty relations gmap.

Local Open Scope string_scope.
Local Open Scope Z_scope.

Set Warnings "-register-all".

#[local] Arguments String.append !s1 s2 : simpl nomatch.

(** ** JavaScript primitives used by the sources

    A string is its sequence of code units; the sources only look for the
    separator [/] at the two ends of a URL and cut it off, and compare
    identifiers as wholes. *)
Module Js.

(** [String.prototype.charAt]: the one-character string at index [i], the
    empty string when [i] is out of range. *)
Definition charAt (s : string) (i : Z) : string :=
  if i <? 0 then ""
  else match String.get (Z.to_nat i) s with
       | Some c => String c ""
       | None => ""
       end.

Definition clamp (len i : Z) : Z := Z.max 0 (Z.min i len).

(** [String.prototype.substring(a, b)]: both indices are clamped to
    [0..length] and swapped when [a > b]. *)
Definition substring (s : string) (a b : Z) : string :=
  let len := Z.of_nat (String.length s) in
  let a' := clamp len a in
  let b' := clamp len b in
  let lo := Z.min a' b' in
  let hi := Z.max a' b' in
  String.substring (Z.to_nat lo) (Z.to_nat (hi - lo)) s.

Definition str_length (s : string) : Z := Z.of_nat (String.length s).

(** Numbers. The sources only add and compare millisecond counts, so a
    number is an integer or [NaN]. *)
Inductive num : Type :=
| NaN
| Fin (z : Z).

Definition num_add (a b : num) : num :=
  match a, b with
  | Fin x, Fin y => Fin (x + y)
  | _, _ => NaN
  end.

Definition num_sub (a b : num) : num :=
  match a, b with
  | Fin x, Fin y => Fin (x - y)
  | _, _ => NaN
  end.

(** [a <= b]; every comparison with [NaN] is false. *)
Definition num_le (a b : num) : bool :=
  match a, b with
  | Fin x, Fin y => x <=? y
  | _, _ => false
  end.

(** What [JSON.parse] can return. *)
Inductive json : Type :=
| JNull
| JBool (b : bool)
| JNum (n : Z)
| JStr (s : string)
| JArr (items : list json)
| JObj (fields : list (string * json)).

(** A value read from a property: [None] is [undefined]. *)
Definition value : Type := option json.

Definition null : value := Some JNull.

(** ToNumber of a numeric property that may be missing. *)
Definition toNumber (o : option Z) : num :=
  match o with
  | Some z => Fin z
  | None => NaN
  end.

(** ToBoolean. *)
Definition truthy (v : value) : bool :=
  match v with
  | None => false
  | Some JNull => false
  | Some (JBool b) => b
  | Some (JNum n) => negb (n =? 0)
  | Some (JStr s) => negb (String.eqb s "")
  | Some (JArr _) => true
  | Some (JObj _) => true
  end.

Definition truthy_string (o : option string) : bool :=
  match o with
  | Some s => negb (String.eqb s "")
  | None => false
  end.

(** Every object is truthy. *)
Definition truthy_object {A : Type} (o : A) : bool := true.

Inductive error : Type :=
| TypeError (msg : string)
| ReferenceError (name : string)
| SyntaxError (msg : string)
| Error (msg : string).

(** The outcome of evaluating an expression or a call. *)
Inductive completion (A : Type) : Type :=
| Normal (a : A)
| Throw (e : error).
Arguments Normal {A} a.
Arguments Throw {A} e.

Definition bind {A B : Type} (c : completion A) (k : A -> completion B)
  : completion B :=
  match c with
  | Normal a => k a
  | Throw e => Throw e
  end.

(** [try { c } catch (error) { h error }]. *)
Definition try_catch {A : Type} (c : completion A) (h : error -> completion A)
  : completion A :=
  match c with
  | Normal a => Normal a
  | Throw e => h e
  end.

Fixpoint assoc (k : string) (fields : list (string * json)) : value :=
  match fields with
  | [] => None
  | (k', v) :: rest => if String.eqb k k' then Some v else assoc k rest
  end.

(** [v.k] for a parsed value [v] and one of the property names the sources
    read ([sessionID], [clientID]), which no prototype supplies: the own
    property of an object, [undefined] on any other value, and a TypeError
    on [null]. *)
Definition get_prop (v : json) (k : string) : completion value :=
  match v with
  | JNull => Throw (TypeError ("Cannot read properties of null (reading '" +:+ k +:+ "')"))
  | JObj fields => Normal (assoc k fields)
  | _ => Normal None
  end.

(** [s === v] for a string [s]. *)
Definition strict_eq_string (s : string) (v : value) : bool :=
  match v with
  | Some (JStr t) => String.eqb s t
  | _ => false
  end.

(** [Array.prototype.filter] with a callback that may throw. *)
Fixpoint array_filter {A : Type} (p : A -> completion bool) (l : list A)
  : completion (list A) :=
  match l with
  | [] => Normal []
  | x :: rest =>
      bind (p x) (fun keep =>
      bind (array_filter p rest) (fun kept =>
      Normal (if keep then x :: kept else kept)))
  end.

(** [Array.prototype.includes] on strings. *)
Definition includes (l : list string) (x : string) : bool :=
  existsb (String.eqb x) l.

(** [Array.prototype.indexOf]: [-1] when absent. *)
Fixpoint indexOf (l : list nat) (x : nat) : Z :=
  match l with
  | [] => -1
  | y :: rest =>
      if Nat.eqb x y then 0
      else let i := indexOf rest x in if i <? 0 then -1 else i + 1
  end.

(** [l.splice(start, 1)]: a negative [start] counts from the end. *)
Definition splice1 {A : Type} (l : list A) (start : Z) : list A :=
  let len := Z.of_nat (List.length l) in
  let i := if start <? 0 then Z.max (len + start) 0 else Z.min start len in
  take (Z.to_nat i) l ++ drop (S (Z.to_nat i)) l.

(** The built-ins the sources call. [crypto.createCipher('aes256', password)]
    takes no initialisation vector: key and vector are both derived from the
    password, so what [update] and [final] return is determined by the
    password and the text fed to the cipher. [randomHex n] is the value of
    the [n]-th [crypto.randomFillSync(Buffer.alloc(32), 0, 32).toString('hex')]
    of the process. *)
Class Platform : Type := {
  cipher_update : string -> string -> string;
  cipher_final : string -> string -> string;
  decipher_update : string -> string -> completion string;
  decipher_final : string -> string -> completion string;
  JSON_parse : string -> completion json;
  JSON_stringify : json -> string;
  randomHex : nat -> string
}.

End Js.

Import Js.

(** ** Classes/Session.js *)
Module SessionJs.

(** Modelled from the spec: [Classes/Client.js], the [Client] class, whose
    constructor the session calls with these three fields. *)
Record Client : Type := {
  clientID : string;
  clientClass : string;
  clientData : value
}.

Record Request : Type := {
  req_url : string
}.

(** An endpoint handler is a callback of the embedding application, called
    with the session data, the client data, the request, the response and
    the cookie text: it returns or throws. What it does to the response is
    its own business; the response is followed through the calls
    [processRequest] makes on it. *)
Definition Handler : Type :=
  value -> value -> Request -> string -> completion unit.

Record Endpoint : Type := {
  url : string;
  allowedClassTypes : list string;
  handler : Handler
}.

Record Session : Type := {
  sessionID : string;
  expiryDate : num;
  clientList : list Client;
  validEndpoints : list Endpoint;
  sessionData : value
}.

(** What [processRequest] can do with its arguments: call the handler of an
    endpoint, [res.end(body)], [next(error)]. *)
Inductive Event : Type :=
| HandlerCall (ep_url : string) (sData cData : value) (req : Request) (cookie : string)
| ResEnd (body : string)
| NextCall (errorCode : Z) (errorText : string).

Record NewClientData : Type := {
  ncd_clientClass : string;
  ncd_clientData : value
}.

Definition cookieObj (sid cid : string) : json :=
  JObj [("sessionID", JStr sid); ("clientID", JStr cid)].

Section Methods.
Context {P : Platform}.

(** [addClient] (14-29); [rnd] is the random identifier drawn for the
    client. Returns the session after the call and the cookie text. *)
Definition addClient (this : Session) (rnd : string) (newClientData : NewClientData)
  : Session * string :=
  let newClient := {| clientID := rnd;
                      clientClass := ncd_clientClass newClientData;
                      clientData := ncd_clientData newClientData |} in
  let this' := {| sessionID := sessionID this;
                  expiryDate := expiryDate this;
                  clientList := clientList this ++ [newClient];
                  validEndpoints := validEndpoints this;
                  sessionData := sessionData this |} in
  let clientCookieObj := cookieObj (sessionID this') (clientID newClient) in
  (this', JSON_stringify clientCookieObj).

(** [removeClient] (32-41). The splice is written on the bare identifier
    [clientList], which no scope of the file binds: evaluating it raises
    a ReferenceError before anything is removed. *)
Definition removeClient (this : Session) (cID : string)
  : Session * completion unit :=
  let matchingClients :=
    List.filter (fun c => String.eqb (clientID c) cID) (clientList this) in
  if 0 <? Z.of_nat (List.length matchingClients)
  then (this, Throw (ReferenceError "clientList"))
  else (this, Normal tt).

(** [trimURL] (84-93). *)
Definition trimURL (url : string) : string :=
  let trimmedUrl := url in
  let trimmedUrl :=
    if String.eqb (charAt trimmedUrl 0) "/"
    then substring trimmedUrl 1 (str_length trimmedUrl)
    else trimmedUrl in
  let trimmedUrl :=
    if String.eqb (charAt trimmedUrl (str_length trimmedUrl - 1)) "/"
    then substring trimmedUrl 0 (str_length trimmedUrl - 1)
    else trimmedUrl in
  trimmedUrl.

(** The value of [client] (45-47): the first client whose ID is the
    [clientID] of the parsed cookie, [None] for [undefined]. The cookie is
    parsed in the callback, once per client. *)
Definition find_client (this : Session) (mdsmCookie : string)
  : completion (option Client) :=
  bind (array_filter (fun c =>
          bind (JSON_parse mdsmCookie) (fun o =>
          bind (get_prop o "clientID") (fun cid =>
          Normal (strict_eq_string (clientID c) cid))))
        (clientList this))
       (fun l => Normal (head l)).

(** The value of [endpoint] (49-51): the first valid endpoint whose URL is
    the trimmed URL of the request. *)
Definition find_endpoint (this : Session) (req : Request) : option Endpoint :=
  head (List.filter (fun ep => String.eqb (url ep) (trimURL (req_url req)))
                    (validEndpoints this)).

(** The text given to [res.end] (57). *)
Definition end_body (this : Session) (mdsmCookie : string) : string :=
  "Your session is " +:+ sessionID this +:+ ". Your MDSM cookie is " +:+ mdsmCookie.

(** [processRequest] (44-58): the calls made on the handler, [res] and
    [next], and how the method completes. Reading [allowedClassTypes] of a
    missing endpoint comes before reading [clientClass] of a missing
    client. *)
Definition processRequest (this : Session) (req : Request) (mdsmCookie : string)
  : list Event * completion unit :=
  match find_client this mdsmCookie with
  | Throw e => ([], Throw e)
  | Normal client =>
      match find_endpoint this req with
      | None =>
          ([], Throw (TypeError "Cannot read properties of undefined (reading 'allowedClassTypes')"))
      | Some endpoint =>
          match client with
          | None =>
              ([], Throw (TypeError "Cannot read properties of undefined (reading 'clientClass')"))
          | Some client =>
              if includes (allowedClassTypes endpoint) (clientClass client)
              then
                let call := HandlerCall (url endpoint) (sessionData this)
                                        (clientData client) req mdsmCookie in
                match handler endpoint (sessionData this) (clientData client)
                                       req mdsmCookie with
                | Throw e => ([call], Throw e)
                | Normal _ => ([call; ResEnd (end_body this mdsmCookie)], Normal tt)
                end
              else ([ResEnd (end_body this mdsmCookie)], Normal tt)
          end
      end
  end.

(** [extendSessionLife] (63-65). *)
Definition extendSessionLife (this : Session) (additionalLifeMs : Z) : Session :=
  {| sessionID := sessionID this;
     expiryDate := num_add (expiryDate this) (Fin additionalLifeMs);
     clientList := clientList this;
     validEndpoints := validEndpoints this;
     sessionData := sessionData this |}.

(** [attemptSelfDestruct] (68-81); [now] is what [Date.now()] returns.
    [delete this] leaves the object as it is. *)
Definition attemptSelfDestruct (this : Session) (now : Z) : bool :=
  let true_ttl := num_sub (expiryDate this) (Fin now) in
  if num_le true_ttl (Fin 0) then true else false.

End Methods.
End SessionJs.

Import SessionJs.

(** ** mdsm.js *)
Module Mdsm.

(** A reference to a [Session] object: its index in the store. *)
Abbreviation ref := nat (only parsing).

(** The variables of the module closure ([MDSM_CONFIG.secret], [sessions],
    [endpoints]) and the part of the process they reach: the [Session]
    objects created so far, the timers pending, and how many random
    identifiers have been drawn. *)
Record State : Type := {
  secret : string;
  sessions : list ref;
  endpoints : list Endpoint;
  store : list Session;
  timers : list (num * ref);
  draws : nat
}.

Record NewSessionInfo : Type := {
  nsi_sessionID : option string;
  nsi_timeToLive : option Z;
  nsi_sessionData : value
}.

(** [newClientInfo.session] is a [Session] object or a session ID. *)
Inductive SessionArg : Type :=
| ByObject (r : ref)
| ByID (sid : string).

Record NewClientInfo : Type := {
  nci_session : SessionArg;
  nci_clientClass : string;
  nci_clientData : value
}.

(** What [findSession] returns on a match. *)
Record Match : Type := {
  mdsmCookie : string;
  session : ref
}.

Definition set_sessions (l : list ref) (st : State) : State :=
  {| secret := secret st; sessions := l; endpoints := endpoints st;
     store := store st; timers := timers st; draws := draws st |}.

Definition set_store (h : list Session) (st : State) : State :=
  {| secret := secret st; sessions := sessions st; endpoints := endpoints st;
     store := h; timers := timers st; draws := draws st |}.

Definition set_timers (t : list (num * ref)) (st : State) : State :=
  {| secret := secret st; sessions := sessions st; endpoints := endpoints st;
     store := store st; timers := t; draws := draws st |}.

Definition set_draws (n : nat) (st : State) : State :=
  {| secret := secret st; sessions := sessions st; endpoints := endpoints st;
     store := store st; timers := timers st; draws := n |}.

(** [setTimeout(() => expireSession(r), delay)]. *)
Definition setTimeout (delay : num) (r : ref) (st : State) : State :=
  set_timers (timers st ++ [(delay, r)]) st.

Section Functions.
Context {P : Platform}.

(** [trimURL] (367-376). *)
Definition trimURL (url : string) : string :=
  let trimmedUrl := url in
  let trimmedUrl :=
    if String.eqb (charAt trimmedUrl 0) "/"
    then substring trimmedUrl 1 (str_length trimmedUrl)
    else trimmedUrl in
  let trimmedUrl :=
    if String.eqb (charAt trimmedUrl (str_length trimmedUrl - 1)) "/"
    then substring trimmedUrl 0 (str_length trimmedUrl - 1)
    else trimmedUrl in
  trimmedUrl.

(** [encrypt] (380-385). *)
Definition encrypt (st : State) (plaintext : string) : string :=
  let encrypted := cipher_update (secret st) plaintext in
  let encrypted := encrypted +:+ cipher_final (secret st) plaintext in
  encrypted.

(** [decrypt] (389-401): the handler of the inner [try] throws the error
    again. *)
Definition decrypt (st : State) (ciphertext : string) : completion string :=
  try_catch
    (bind (decipher_update (secret st) ciphertext) (fun decrypted =>
     bind (decipher_final (secret st) ciphertext) (fun last =>
     Normal (decrypted +:+ last))))
    (fun error => Throw error).

(** The callback [(s) => s.sessionID === v] on an element of [sessions].
    Every element of [sessions] is a [Session] of the store. *)
Definition sessionID_is (st : State) (v : value) (r : ref) : bool :=
  match store st !! r with
  | Some s => strict_eq_string (sessionID s) v
  | None => false
  end.

(** [findSession] (210-249). The message written to the console in the
    handler is left out. *)
Definition findSession (st : State) (sessionCookie : string)
  : completion (option Match) :=
  try_catch
    (bind (decrypt st sessionCookie) (fun unencrypted =>
     bind (JSON_parse unencrypted) (fun sessionDataObject =>
     bind (array_filter (fun r =>
             bind (get_prop sessionDataObject "sessionID") (fun sid =>
             Normal (sessionID_is st sid r)))
           (sessions st)) (fun filteredSessionList =>
     match filteredSessionList with
     | r :: _ => Normal (Some {| mdsmCookie := unencrypted; session := r |})
     | [] => Normal None
     end))))
    (fun error => Normal None).

(** [expireSession] (285-304), the function [createSession] puts on a
    timer. *)
Definition expireSession (now : Z) (r : ref) (st : State) : State :=
  match store st !! r with
  | None => st
  | Some s =>
      let wasDestroyed := attemptSelfDestruct s now in
      if wasDestroyed
      then set_sessions (splice1 (sessions st) (indexOf (sessions st) r)) st
      else setTimeout (num_sub (expiryDate s) (Fin now)) r st
  end.

(** [createSession] (252-316); [now] is what [Date.now()] returns. The
    guard of the time-to-live default tests [newSessionInfo] itself. *)
Definition createSession (now : Z) (newSessionInfo : NewSessionInfo) (st : State)
  : ref * State :=
  let '(sid, st) :=
    if negb (truthy_string (nsi_sessionID newSessionInfo))
    then (randomHex (draws st), set_draws (S (draws st)) st)
    else (default "" (nsi_sessionID newSessionInfo), st) in
  let timeToLive :=
    if negb (truthy_object newSessionInfo)
    then Fin 0
    else toNumber (nsi_timeToLive newSessionInfo) in
  let sData :=
    if negb (truthy (nsi_sessionData newSessionInfo))
    then null
    else nsi_sessionData newSessionInfo in
  let newSesh := {| sessionID := sid;
                    expiryDate := num_add (Fin now) timeToLive;
                    clientList := [];
                    validEndpoints := endpoints st;
                    sessionData := sData |} in
  let r := List.length (store st) in
  let st := set_store (store st ++ [newSesh]) st in
  let st := set_sessions (sessions st ++ [r]) st in
  let st := setTimeout timeToLive r st in
  (r, st).

(** [sessions.filter((s) => s.sessionID === sessionID)[0]]. *)
Definition session_with_id (st : State) (sid : string) : option ref :=
  head (List.filter (sessionID_is st (Some (JStr sid))) (sessions st)).

(** [session.extendSessionLife(ms)] on the object behind [r]. *)
Definition call_extendSessionLife (r : ref) (ms : Z) (st : State) : State :=
  set_store (alter (fun s => extendSessionLife s ms) r (store st)) st.

(** [renewSession] (319-327). *)
Definition renewSession (sid : string) (extraTimeInMs : Z) (st : State)
  : completion unit * State :=
  match session_with_id st sid with
  | None =>
      (Throw (TypeError "Cannot read properties of undefined (reading 'extendSessionLife')"), st)
  | Some r => (Normal tt, call_extendSessionLife r extraTimeInMs st)
  end.

(** [session.addClient(newClientData)] on the object behind [r], drawing the
    client identifier. A reference to no [Session] has no such method. *)
Definition call_addClient (r : ref) (newClientData : NewClientData) (st : State)
  : completion string * State :=
  match store st !! r with
  | None => (Throw (TypeError "session.addClient is not a function"), st)
  | Some s =>
      let '(s', cookie) := SessionJs.addClient s (randomHex (draws st)) newClientData in
      (Normal cookie, set_draws (S (draws st)) (set_store (<[r := s']> (store st)) st))
  end.

(** [addClient] (332-363): the encrypted cookie, or [None] for [null]. The
    lines written to the console are left out. *)
Definition addClient (newClientInfo : NewClientInfo) (st : State)
  : completion (option string) * State :=
  let resolved :=
    match nci_session newClientInfo with
    | ByID sid => session_with_id st sid
    | ByObject r => Some r
    end in
  match resolved with
  | None => (Normal None, st)
  | Some r =>
      let '(c, st') :=
        call_addClient r {| ncd_clientClass := nci_clientClass newClientInfo;
                            ncd_clientData := nci_clientData newClientInfo |} st in
      (bind c (fun clientCookie => Normal (Some (encrypt st' clientCookie))), st')
  end.

End Functions.
End Mdsm.

Import Mdsm.

(** ** A reference platform

    A small platform to run the sources on. Its cipher tags the text with
    the password; its JSON covers the objects with string members that the
    cookie uses. *)
Module Reference.

Definition dquote : ascii := Ascii.ascii_of_nat 34.
Definition backslash : ascii := Ascii.ascii_of_nat 92.

Definition special (c : ascii) : bool :=
  Ascii.eqb c dquote || Ascii.eqb c backslash.

Fixpoint escape (s : string) : string :=
  match s with
  | EmptyString => EmptyString
  | String c rest =>
      if special c then String backslash (String c (escape rest))
      else String c (escape rest)
  end.

Definition quote (s : string) : string :=
  String dquote (escape s +:+ String dquote EmptyString).

Definition join (sep : string) (l : list string) : string :=
  match l with
  | [] => EmptyString
  | x :: rest => fold_left (fun acc y => acc +:+ sep +:+ y) rest x
  end.

Fixpoint stringify (v : json) : string :=
  match v with
  | JNull => "null"
  | JBool true => "true"
  | JBool false => "false"
  | JNum n => pretty n
  | JStr s => quote s
  | JArr items => "[" +:+ join "," (map stringify items) +:+ "]"
  | JObj fields =>
      "{" +:+ join "," (map (fun kv => quote (fst kv) +:+ ":" +:+ stringify (snd kv)) fields)
          +:+ "}"
  end.

Definition prepend (c : ascii) (r : option (string * string)) : option (string * string) :=
  match r with
  | Some (s, rest) => Some (String c s, rest)
  | None => None
  end.

(** The text of a string literal after its opening quote, and what follows
    its closing quote. *)
Fixpoint read_string (s : string) : option (string * string) :=
  match s with
  | EmptyString => None
  | String c rest =>
      if Ascii.eqb c dquote then Some (EmptyString, rest)
      else if Ascii.eqb c backslash then
        match rest with
        | String d rest' => if special d then prepend d (read_string rest') else None
        | EmptyString => None
        end
      else prepend c (read_string rest)
  end.

Definition expect (c : ascii) (s : string) : option string :=
  match s with
  | String d rest => if Ascii.eqb c d then Some rest else None
  | EmptyString => None
  end.

Definition colon : ascii := Ascii.ascii_of_nat 58.
Definition comma : ascii := Ascii.ascii_of_nat 44.
Definition lbrace : ascii := Ascii.ascii_of_nat 123.
Definition rbrace : ascii := Ascii.ascii_of_nat 125.

(** The members of an object, from the quote of the first key on. *)
Fixpoint members (fuel : nat) (s : string) : option (list (string * json)) :=
  match fuel with
  | O => None
  | S fuel =>
      s1 ← expect dquote s;
      '(k, s2) ← read_string s1;
      s3 ← expect colon s2;
      s4 ← expect dquote s3;
      '(v, s5) ← read_string s4;
      match s5 with
      | String c EmptyString => if Ascii.eqb c rbrace then Some [(k, JStr v)] else None
      | String c s6 =>
          if Ascii.eqb c comma then (fun l => (k, JStr v) :: l) <$> members fuel s6
          else None
      | EmptyString => None
      end
  end.

Definition parse (s : string) : completion json :=
  if String.eqb s "null" then Normal JNull
  else if String.eqb s "{}" then Normal (JObj [])
  else match expect lbrace s with
       | Some body =>
           match members (String.length body) body with
           | Some fields => Normal (JObj fields)
           | None => Throw (SyntaxError "Unexpected token")
           end
       | None => Throw (SyntaxError "Unexpected token")
       end.

Fixpoint strip_prefix (p s : string) : option string :=
  match p, s with
  | EmptyString, _ => Some s
  | String c p', String d s' => if Ascii.eqb c d then strip_prefix p' s' else None
  | String _ _, EmptyString => None
  end.

(** Identifiers are numbered instead of random. *)
Definition hex_of_draw (n : nat) : string := "id" +:+ pretty n.

#[export] Instance platform : Platform := {|
  cipher_update k p := k;
  cipher_final k p := p;
  decipher_update k c := Normal EmptyString;
  decipher_final k c :=
    match strip_prefix k c with
    | Some p => Normal p
    | None => Throw (Error "bad decrypt")
    end;
  JSON_parse := parse;
  JSON_stringify := stringify;
  randomHex := hex_of_draw
|}.

End Reference.

(** ** The specification's own words *)
Module Spec.

(** "strips exactly one leading ... path separator". *)
Definition strip_leading (s : string) : string :=
  match s with
  | String c rest => if Ascii.eqb c "/" then rest else s
  | EmptyString => s
  end.

(** "... and one trailing path separator". *)
Fixpoint strip_trailing (s : string) : string :=
  match s with
  | EmptyString => EmptyString
  | String c EmptyString => if Ascii.eqb c "/" then EmptyString else s
  | String c rest => String c (strip_trailing rest)
  end.

Definition normalize (u : string) : string := strip_trailing (strip_leading u).

Definition starts_with_slash (s : string) : bool :=
  match s with
  | String c _ => Ascii.eqb c "/"
  | EmptyString => false
  end.

Fixpoint ends_with_slash (s : string) : bool :=
  match s with
  | EmptyString => false
  | String c EmptyString => Ascii.eqb c "/"
  | String _ rest => ends_with_slash rest
  end.

(** What the specification takes from the platform: "Round-trip:
    decrypt(encrypt(x)) == x for all valid payloads x", here for the cipher
    and the decipher built on one password and the text of a cookie record,
    and [JSON.parse] undoing [JSON.stringify] on the cookie record. *)
Class PlatformLaws (P : Platform) : Prop := {
  decipher_cipher : forall k sid cid : string,
    let p := JSON_stringify (cookieObj sid cid) in
    let c := cipher_update k p +:+ cipher_final k p in
    bind (decipher_update k c) (fun decrypted =>
    bind (decipher_final k c) (fun last => Normal (decrypted +:+ last)))
    = Normal p;
  parse_stringify : forall sid cid : string,
    JSON_parse (JSON_stringify (cookieObj sid cid)) = Normal (cookieObj sid cid)
}.

End Spec.

(** ** One process *)
Module Process.

(** The calls that change the state of the module: those of the public
    interface, those the embedder makes on a [Session] it holds, and the
    timers. [findSession], [encrypt], [decrypt], [processRequest] and
    [removeClient] leave the state as it is. *)
Inductive step {P : Platform} : State -> State -> Prop :=
| step_createSession (now : Z) (info : NewSessionInfo) (st : State) :
    step st (snd (createSession now info st))
| step_renewSession (sid : string) (extra : Z) (st : State) :
    step st (snd (renewSession sid extra st))
| step_addClient (info : NewClientInfo) (st : State) :
    step st (snd (Mdsm.addClient info st))
| step_session_addClient (r : ref) (ncd : NewClientData) (st : State) :
    step st (snd (call_addClient r ncd st))
| step_session_extend (r : ref) (ms : Z) (st : State) :
    step st (call_extendSessionLife r ms st)
| step_expireSession (now : Z) (r : ref) (st : State) :
    step st (expireSession now r st).

(** Every element of [sessions] is an object of the store. *)
Definition sessions_allocated (st : State) : Prop :=
  forall r : ref, In r (sessions st) -> (r < List.length (store st))%nat.

(** What holds of the module state all along: [sessions] holds references
    to objects of the store, each once. *)
Definition well_formed (st : State) : Prop :=
  sessions_allocated st /\ NoDup (sessions st).

Definition is_handler_call (e : Event) : bool :=
  match e with
  | HandlerCall _ _ _ _ _ => true
  | _ => false
  end.

Definition is_res_end (e : Event) : bool :=
  match e with
  | ResEnd _ => true
  | _ => false
  end.

End Process.

(** ** Concrete inputs, after test.js *)
Module Examples.
Import Reference.

Definition quiet : Handler := fun _ _ _ _ => Normal tt.
Definition failing : Handler := fun _ _ _ _ => Throw (Error "handler failed").

Definition doSomething1 : Endpoint :=
  {| url := "api/doSomething1"; allowedClassTypes := ["class_A"]; handler := quiet |}.
Definition doSomething2 : Endpoint :=
  {| url := "api/doSomething2"; allowedClassTypes := ["class_B"]; handler := quiet |}.
Definition doSomething3 : Endpoint :=
  {| url := "api/doSomething3"; allowedClassTypes := ["class_A"]; handler := failing |}.

Definition st0 : State :=
  {| secret := "c2VjcmV0"; sessions := [];
     endpoints := [doSomething1; doSomething2; doSomething3];
     store := []; timers := []; draws := 0 |}.

Definition bar_baz : value := Some (JObj [("bar", JStr "baz")]).
Definition foo_bar : value := Some (JObj [("foo", JStr "bar")]).

(** A session ID chosen by the caller, and 10 seconds to live. *)
Definition info_a : NewSessionInfo :=
  {| nsi_sessionID := Some "a"; nsi_timeToLive := Some 10000; nsi_sessionData := bar_baz |}.

(** No time-to-live given. *)
Definition info_no_ttl : NewSessionInfo :=
  {| nsi_sessionID := Some "b"; nsi_timeToLive := None; nsi_sessionData := bar_baz |}.

Definition client_A : NewClientData :=
  {| ncd_clientClass := "class_A"; ncd_clientData := foo_bar |}.

(** One session [a] created at time 0. *)
Definition st1 : State := snd (createSession 0 info_a st0).

(** The session of [st1], and the same with its client. *)
Definition session_a0 : Session :=
  {| sessionID := "a"; expiryDate := Fin 10000; clientList := [];
     validEndpoints := [doSomething1; doSomething2; doSomething3];
     sessionData := bar_baz |}.

Definition session_a : Session :=
  {| sessionID := "a"; expiryDate := Fin 10000;
     clientList := [{| clientID := "id0"; clientClass := "class_A"; clientData := foo_bar |}];
     validEndpoints := [doSomething1; doSomething2; doSomething3];
     sessionData := bar_baz |}.

Definition cookie_a : string := stringify (cookieObj "a" "id0").
Definition cookie_gone : string := stringify (cookieObj "a" "id7").

Definition req (u : string) : Request := {| req_url := u |}.

End Examples.

(** ** Text primitives of the request router *)
Module Text.

(** The white space [String.prototype.trim] removes, among the code units
    below 256: TAB, LF, VT, FF, CR, SP and NBSP. *)
Definition is_white_space (c : ascii) : bool :=
  let n := nat_of_ascii c in
  ((9 <=? n)%nat && (n <=? 13)%nat) || (n =? 32)%nat || (n =? 160)%nat.

Fixpoint trim_start (s : string) : string :=
  match s with
  | EmptyString => EmptyString
  | String c rest => if is_white_space c then trim_start rest else s
  end.

Fixpoint trim_end (s : string) : string :=
  match s with
  | EmptyString => EmptyString
  | String c rest =>
      let rest' := trim_end rest in
      if is_white_space c && String.eqb rest' EmptyString then EmptyString
      else String c rest'
  end.

(** [String.prototype.trim]. *)
Definition trim (s : string) : string := trim_end (trim_start s).

(** The piece before the first separator and the pieces after it. *)
Fixpoint split_go (sep : ascii) (s : string) : string * list string :=
  match s with
  | EmptyString => (EmptyString, [])
  | String c rest =>
      let '(piece, pieces) := split_go sep rest in
      if Ascii.eqb c sep then (EmptyString, piece :: pieces)
      else (String c piece, pieces)
  end.

(** [String.prototype.split] on a separator of one character: at least one
    piece, the whole string when the separator does not occur. *)
Definition split (sep : ascii) (s : string) : list string :=
  let '(piece, pieces) := split_go sep s in piece :: pieces.

(** [Array.prototype.join]. *)
Fixpoint join (sep : string) (l : list string) : string :=
  match l with
  | [] => EmptyString
  | [x] => x
  | x :: rest => x +:+ sep +:+ join sep rest
  end.

(** [decodeURI], a built-in: the decoded text, or a URIError thrown on a
    malformed escape sequence. *)
Class UriCodec : Type := {
  decodeURI : string -> completion string
}.

End Text.

Import Text.

(** ** mdsm.js: initialisation and the request router *)
Module Router.

Inductive Mode : Type :=
| Port
| Middleware.

(** [MDSM_CONFIG.mode] and [MDSM_CONFIG.port]; [None] is [null]. *)
Record Config : Type := {
  mode : option Mode;
  port : option Z
}.

(** The argument of [init]. [ic_mode] is [None] for any value other than
    the two mode names; [ic_https] tells whether [https] settings are
    given. *)
Record InitConfig : Type := {
  ic_mode : option Mode;
  ic_port : option Z;
  ic_https : bool;
  ic_endpoints : list Endpoint
}.

(** A call of [listen]: the kind of server asked for and its port. *)
Record ListenCall : Type := {
  lc_https : bool;
  lc_port : option Z
}.

(** A request as the router reads it: [req.url] and [req.headers.cookie]. *)
Record HttpRequest : Type := {
  hr_url : string;
  hr_cookie : option string
}.

(** The request as a session and a handler read it. *)
Definition to_request (req : HttpRequest) : Request := {| req_url := hr_url req |}.

(** What the router does: what [Event] lists, and [res.statusCode = code]. *)
Inductive RouterEvent : Type :=
| Did (e : Event)
| SetStatusCode (code : Z).

Definition set_endpoints (eps : list Endpoint) (st : State) : State :=
  {| secret := secret st; sessions := sessions st; endpoints := eps;
     store := store st; timers := timers st; draws := draws st |}.

Definition tab : ascii := Ascii.ascii_of_nat 9.

Fixpoint tabs (n : nat) : string :=
  match n with
  | O => EmptyString
  | S n => String tab (tabs n)
  end.

(** The text of error 2 (108-110): the continuation lines of the literal
    keep their indentation. *)
Definition errorText2 : string :=
  "MDSM Error: processRequest() unavailable in Port mode."
  +:+ tabs 4 +:+ " " +:+ tabs 4
  +:+ "Use Middleware mode, or route requests directly to the "
  +:+ tabs 8 +:+ "port specified on initialization.".

(** [list[key] = value] on a plain object with a string value: the key
    [__proto__] names the prototype accessor, which ignores a string. *)
Definition obj_set (key value : string) (list : gmap string string)
  : gmap string string :=
  if String.eqb key "__proto__" then list else <[key := value]> list.

(** [next(error)], where [next] may be missing ([has_next = false]). *)
Definition call_next (has_next : bool) (errorCode : Z) (errorText : string)
  : list RouterEvent * completion unit :=
  if has_next then ([Did (NextCall errorCode errorText)], Normal tt)
  else ([], Throw (TypeError "next is not a function")).

Section Functions.
Context {P : Platform} {U : UriCodec}.

(** [init] (37-54): the configuration and the state after the call, and the
    call of [listen] when there is one. The callback of [map] writes the
    trimmed URL into the endpoint object it is given; the objects of
    [initConfig.endpoints] are taken to be the caller's, held by no session
    yet, so that the write shows in the new [endpoints] alone. *)
Definition init (initConfig : InitConfig) (cfg : Config) (st : State)
  : Config * State * option ListenCall :=
  let '(cfg, listening) :=
    match ic_mode initConfig with
    | Some Port =>
        ({| mode := Some Port; port := ic_port initConfig |},
         Some {| lc_https := ic_https initConfig; lc_port := ic_port initConfig |})
    | Some Middleware => ({| mode := Some Middleware; port := port cfg |}, None)
    | None => (cfg, None)
    end in
  let eps := map (fun endpoint =>
                    {| url := Mdsm.trimURL (url endpoint);
                       allowedClassTypes := allowedClassTypes endpoint;
                       handler := handler endpoint |})
                 (ic_endpoints initConfig) in
  (cfg, set_endpoints eps st, listening).

(** [isValidEndpoint] (184-192). *)
Definition isValidEndpoint (st : State) (u : string) : bool :=
  let matchingEndpoints :=
    List.filter (fun ep => String.eqb (url ep) (Mdsm.trimURL u)) (endpoints st) in
  negb (Nat.eqb (List.length matchingEndpoints) 0).

(** The callback of [forEach] (198-201) over the pieces of the header: the
    key is read, and the first part shifted off, before the value is
    decoded. *)
Fixpoint forEach_cookie (cookies : list string) (list : gmap string string)
  : completion (gmap string string) :=
  match cookies with
  | [] => Normal list
  | cookie :: rest =>
      match split "=" cookie with
      | [] => Throw (TypeError "Cannot read properties of undefined (reading 'trim')")
      | first :: parts =>
          bind (decodeURI (join "=" parts)) (fun value =>
          forEach_cookie rest (obj_set (trim first) value list))
      end
  end.

(** [getCookieListFromReq] (195-204). The map holds the own properties of
    [list]; the router reads [mdsm] alone, which the prototype of a plain
    object does not have. *)
Definition getCookieListFromReq (request : HttpRequest)
  : completion (gmap string string) :=
  if truthy_string (hr_cookie request)
  then forEach_cookie (split ";" (default EmptyString (hr_cookie request))) ∅
  else Normal ∅.

(** [processRequest] (119-181). A session found is an object of the store;
    a reference to none has no [processRequest]. *)
Definition processRequest (cfg : Config) (st : State) (req : HttpRequest)
    (has_next : bool) : list RouterEvent * completion unit :=
  let reqUrl := Mdsm.trimURL (hr_url req) in
  if negb (isValidEndpoint st reqUrl)
  then call_next has_next 3 "Invalid endpoint"
  else
    match getCookieListFromReq req with
    | Throw e => ([], Throw e)
    | Normal cookieList =>
        if truthy_string (cookieList !! "mdsm")
        then
          match findSession st (default EmptyString (cookieList !! "mdsm")) with
          | Throw e => ([], Throw e)
          | Normal (Some found) =>
              match store st !! session found with
              | Some s =>
                  let '(events, c) :=
                    SessionJs.processRequest s (to_request req) (mdsmCookie found) in
                  (map Did events, c)
              | None =>
                  ([], Throw (TypeError "match.session.processRequest is not a function"))
              end
          | Normal None =>
              call_next has_next 1
                "MDSM Error: Invalid MDSM cookie. Could not find matching session."
          end
        else
          match mode cfg with
          | Some Port =>
              ([SetStatusCode 400; Did (ResEnd "Not an MDSM request")], Normal tt)
          | _ => call_next has_next 0 "Not an MDSM request (no MDSM cookie)"
          end
    end.

(** [requestListener] (58-60). *)
Definition requestListener (cfg : Config) (st : State) (req : HttpRequest)
    (has_next : bool) : list RouterEvent * completion unit :=
  processRequest cfg st req has_next.

(** [processRequestAsMiddleware] (104-115), the public [processRequest]. *)
Definition processRequestAsMiddleware (cfg : Config) (st : State)
    (req : HttpRequest) (has_next : bool) : list RouterEvent * completion unit :=
  match mode cfg with
  | Some Middleware => processRequest cfg st req has_next
  | _ => call_next has_next 2 errorText2
  end.

End Functions.
End Router.

(** ** The timers of the sessions *)
Module EventLoop.

(** The event loop runs the callback of the pending timer at index [i], at
    time [now]: the timer is gone and [expireSession] runs on its session. *)
Definition fire (i : nat) (now : Z) (st : State) : State :=
  match timers st !! i with
  | None => st
  | Some (_, r) => expireSession now r (set_timers (delete i (timers st)) st)
  end.

(** The calls of one process, with the timers run by the event loop. *)
Inductive run {P : Platform} : State -> State -> Prop :=
| run_createSession (now : Z) (info : NewSessionInfo) (st : State) :
    run st (snd (createSession now info st))
| run_renewSession (sid : string) (extra : Z) (st : State) :
    run st (snd (renewSession sid extra st))
| run_addClient (info : NewClientInfo) (st : State) :
    run st (snd (Mdsm.addClient info st))
| run_session_addClient (r : ref) (ncd : NewClientData) (st : State) :
    run st (snd (call_addClient r ncd st))
| run_session_extend (r : ref) (ms : Z) (st : State) :
    run st (call_extendSessionLife r ms st)
| run_init (ic : Router.InitConfig) (cfg : Router.Config) (st : State) :
    run st (snd (fst (Router.init ic cfg st)))
| run_fire (i : nat) (now : Z) (st : State) :
    run st (fire i now st).

(** Each live session has one pending timer, and no timer is pending for
    anything else. *)
Definition one_timer_each (st : State) : Prop :=
  map snd (timers st) ≡ₚ sessions st.

(** The timers and the sessions agree, and the sessions are well formed. *)
Definition timers_sound (st : State) : Prop :=
  Process.well_formed st /\ one_timer_each st.

End EventLoop.

(** ** Reading a cookie header, in words *)
Module Cookies.

(** The text before the first [sep], all of it when there is none. *)
Fixpoint before_first (sep : ascii) (s : string) : string :=
  match s with
  | EmptyString => EmptyString
  | String c rest =>
      if Ascii.eqb c sep then EmptyString else String c (before_first sep rest)
  end.

(** The text after the first [sep], nothing when there is none. *)
Fixpoint after_first (sep : ascii) (s : string) : string :=
  match s with
  | EmptyString => EmptyString
  | String c rest => if Ascii.eqb c sep then rest else after_first sep rest
  end.

Fixpoint has_char (c : ascii) (s : string) : bool :=
  match s with
  | EmptyString => false
  | String d rest => Ascii.eqb d c || has_char c rest
  end.

(** The name of a [name=value] piece of the header. *)
Definition cookie_name (cookie : string) : string := trim (before_first "=" cookie).

(** Its value as sent, before decoding. *)
Definition cookie_value (cookie : string) : string := after_first "=" cookie.


End Cookies.

(** ** A reference decoder

    A decoder for cookie values with no escape in them: those it leaves as
    they are, on the others it throws. *)
Module PlainCodec.

Definition plain_decodeURI (s : string) : completion string :=
  if Cookies.has_char "%" s then Throw (Error "URI malformed") else Normal s.

#[export] Instance plain_codec : UriCodec := {| decodeURI := plain_decodeURI |}.

End PlainCodec.

(** ** Concrete requests *)
Module Requests.
Import Reference PlainCodec Examples Router.

Definition middleware : Config := {| mode := Some Middleware; port := None |}.

(** The state of [st1] after a client of class [class_A] is added to its
    session, and the cookie handed out for it. *)
Definition st1_client : State := snd (call_addClient 0%nat client_A st1).
Definition granted : string := encrypt st1_client cookie_a.

Definition with_cookie (u : string) : HttpRequest :=
  {| hr_url := u; hr_cookie := Some ("mdsm=" +:+ granted) |}.


(** A cookie of another application with a stray percent sign. *)
Definition stray_percent : HttpRequest :=
  {| hr_url := "/api/doSomething1/"; hr_cookie := Some "theme=50%; mdsm=abc" |}.

Definition unregistered : HttpRequest :=
  {| hr_url := "/api/doesNotExist/"; hr_cookie := None |}.

End Requests.

(** * Properties *)

(** ** URL normalisation *)
Section TrimURL.
Import Spec.

Lemma substring_all (s : string) :
  String.substring 0 (String.length s) s = s.
Proof. induction s as [|c s IH]; simpl; [reflexivity | by rewrite IH]. Qed.

Lemma charAt_0 (s : string) :
  String.eqb (charAt s 0) "/" = starts_with_slash s.
Proof.
  destruct s as [|c s]; [reflexivity|].
  unfold charAt; simpl.
  destruct (Ascii.eqb_spec c "/") as [->|Hne]; reflexivity.
Qed.

Lemma substring_tail (c : ascii) (s : string) :
  substring (String c s) 1 (str_length (String c s)) = s.
Proof.
  unfold substring, str_length, clamp.
  set (len := Z.of_nat (String.length (String c s))).
  assert (Hlen : len = Z.of_nat (String.length s) + 1)
    by (unfold len; simpl String.length; lia).
  replace (Z.min (Z.max 0 (Z.min 1 len)) (Z.max 0 (Z.min len len))) with 1 by lia.
  replace (Z.max (Z.max 0 (Z.min 1 len)) (Z.max 0 (Z.min len len)) - 1)
    with (Z.of_nat (String.length s)) by lia.
  rewrite Nat2Z.id. change (Z.to_nat 1) with 1%nat. simpl.
  apply substring_all.
Qed.

Lemma charAt_last (s : string) :
  String.eqb (charAt s (str_length s - 1)) "/" = ends_with_slash s.
Proof.
  unfold charAt, str_length.
  induction s as [|c s IH]; [reflexivity|].
  destruct s as [|d s].
  - simpl. destruct (Ascii.eqb_spec c "/") as [->|Hne]; reflexivity.
  - change (ends_with_slash (String c (String d s))) with (ends_with_slash (String d s)).
    rewrite <- IH. clear IH.
    replace (Z.of_nat (String.length (String c (String d s))) - 1)
      with (Z.of_nat (S (String.length s))) by (simpl String.length; lia).
    replace (Z.of_nat (String.length (String d s)) - 1)
      with (Z.of_nat (String.length s)) by (simpl String.length; lia).
    destruct (Z.ltb_spec (Z.of_nat (S (String.length s))) 0); [lia|].
    destruct (Z.ltb_spec (Z.of_nat (String.length s)) 0); [lia|].
    rewrite !Nat2Z.id. reflexivity.
Qed.

Lemma substring_init (s : string) :
  ends_with_slash s = true ->
  substring s 0 (str_length s - 1) = strip_trailing s.
Proof.
  unfold substring, str_length, clamp. intros Hend.
  set (len := Z.of_nat (String.length s)).
  assert (Hpos : 1 <= len).
  { unfold len. destruct s; [discriminate | simpl String.length; lia]. }
  replace (Z.min (Z.max 0 (Z.min 0 len)) (Z.max 0 (Z.min (len - 1) len))) with 0 by lia.
  replace (Z.max (Z.max 0 (Z.min 0 len)) (Z.max 0 (Z.min (len - 1) len)) - 0)
    with (len - 1) by lia.
  change (Z.to_nat 0) with 0%nat. unfold len. clear len Hpos.
  induction s as [|c s IH]; [discriminate|].
  destruct s as [|d s].
  - simpl in *. rewrite Hend. reflexivity.
  - change (strip_trailing (String c (String d s)))
      with (String c (strip_trailing (String d s))).
    rewrite <- IH by exact Hend.
    replace (Z.to_nat (Z.of_nat (String.length (String c (String d s))) - 1))
      with (S (Z.to_nat (Z.of_nat (String.length (String d s)) - 1)))
      by (simpl String.length; lia).
    reflexivity.
Qed.

Lemma strip_trailing_id (s : string) :
  ends_with_slash s = false -> strip_trailing s = s.
Proof.
  induction s as [|c s IH]; [reflexivity|].
  destruct s as [|d s]; intros H.
  - simpl in *. by rewrite H.
  - change (strip_trailing (String c (String d s)))
      with (String c (strip_trailing (String d s))).
    by rewrite IH.
Qed.

Lemma strip_trailing_length (s : string) :
  (String.length (strip_trailing s) <= String.length s)%nat.
Proof.
  induction s as [|c s IH]; [simpl; lia|].
  destruct s as [|d s].
  - simpl. destruct (Ascii.eqb c "/"); simpl; lia.
  - change (strip_trailing (String c (String d s)))
      with (String c (strip_trailing (String d s))).
    simpl String.length in *. lia.
Qed.

Lemma strip_trailing_shorter (s : string) :
  ends_with_slash s = true ->
  (String.length (strip_trailing s) < String.length s)%nat.
Proof.
  induction s as [|c s IH]; [discriminate|].
  destruct s as [|d s]; intros H.
  - simpl in *. rewrite H. simpl. lia.
  - change (strip_trailing (String c (String d s)))
      with (String c (strip_trailing (String d s))).
    specialize (IH H). simpl String.length in *. lia.
Qed.

(** The code computes what the specification describes. *)
Lemma trimURL_normalize (u : string) : Mdsm.trimURL u = normalize u.
Proof.
  unfold Mdsm.trimURL, normalize.
  rewrite charAt_0.
  assert (Hlead : (if starts_with_slash u then substring u 1 (str_length u) else u)
                  = strip_leading u).
  { destruct u as [|c u]; [reflexivity|].
    simpl starts_with_slash. simpl strip_leading.
    destruct (Ascii.eqb c "/"); [apply substring_tail | reflexivity]. }
  rewrite Hlead. rewrite charAt_last.
  destruct (ends_with_slash (strip_leading u)) eqn:E.
  - by apply substring_init.
  - symmetry. by apply strip_trailing_id.
Qed.

Lemma session_trimURL_same : SessionJs.trimURL = Mdsm.trimURL.
Proof. reflexivity. Qed.

Lemma normalize_fixed (t : string) :
  normalize t = t <-> starts_with_slash t = false /\ ends_with_slash t = false.
Proof.
  unfold normalize. split.
  - intros Heq.
    destruct (starts_with_slash t) eqn:Es.
    + exfalso. destruct t as [|c t]; [discriminate|].
      simpl in Es. simpl strip_leading in Heq. rewrite Es in Heq.
      pose proof (strip_trailing_length t) as Hlen.
      rewrite Heq in Hlen. simpl in Hlen. lia.
    + split; [reflexivity|].
      assert (Hl : strip_leading t = t).
      { destruct t as [|c t]; [reflexivity|]. simpl in *. by rewrite Es. }
      rewrite Hl in Heq.
      destruct (ends_with_slash t) eqn:Ee; [|reflexivity].
      pose proof (strip_trailing_shorter t Ee) as Hlen.
      rewrite Heq in Hlen. lia.
  - intros [Hs He].
    assert (Hl : strip_leading t = t).
    { destruct t as [|c t]; [reflexivity|]. simpl in *. by rewrite Hs. }
    rewrite Hl. by apply strip_trailing_id.
Qed.

(** C5, as the code has it. [trimURL] removes one leading separator if there
    is one and then one trailing separator if there is one, the same in both
    files, so [/a/b/] and [a/b] both give [a/b]. A second application changes
    the result again exactly when the first result still starts or ends with
    a separator. *)
Theorem trimURL_strips_one_each :
  Mdsm.trimURL "/a/b/" = "a/b" /\ Mdsm.trimURL "a/b" = "a/b" /\
  forall u : string,
    Mdsm.trimURL u = strip_trailing (strip_leading u) /\
    SessionJs.trimURL u = Mdsm.trimURL u /\
    (Mdsm.trimURL (Mdsm.trimURL u) = Mdsm.trimURL u <->
     starts_with_slash (Mdsm.trimURL u) = false /\
     ends_with_slash (Mdsm.trimURL u) = false).
Proof.
  split; [reflexivity|]. split; [reflexivity|].
  intros u. split; [apply trimURL_normalize|]. split; [reflexivity|].
  rewrite (trimURL_normalize (Mdsm.trimURL u)). apply normalize_fixed.
Qed.

(** C5 as stated fails: [trimURL] is not idempotent on [//a]. *)
Lemma trimURL_not_idempotent :
  Mdsm.trimURL (Mdsm.trimURL "//a") <> Mdsm.trimURL "//a".
Proof. vm_compute. discriminate. Qed.

End TrimURL.

(** ** The reference platform keeps the laws *)
Section ReferenceLaws.
Import Reference Spec.

Lemma string_app_assoc (a b c : string) : (a +:+ b) +:+ c = a +:+ (b +:+ c).
Proof. induction a as [|x a IH]; [reflexivity | simpl; f_equal; exact IH]. Qed.

Lemma strip_prefix_app (k p : string) : strip_prefix k (k +:+ p) = Some p.
Proof.
  induction k as [|c k IH]; simpl; [by destruct p|].
  by rewrite Ascii.eqb_refl.
Qed.

Lemma read_string_escape (s rest : string) :
  read_string (escape s +:+ String dquote rest) = Some (s, rest).
Proof.
  induction s as [|c s IH].
  - reflexivity.
  - cbn [escape]. destruct (special c) eqn:Hc.
    + cbn [String.append read_string].
      change (Ascii.eqb backslash dquote) with false.
      change (Ascii.eqb backslash backslash) with true.
      cbv iota. rewrite Hc, IH. reflexivity.
    + cbn [String.append read_string].
      unfold special in Hc. apply orb_false_iff in Hc as [Hq Hb].
      rewrite Hq, Hb, IH. reflexivity.
Qed.


Lemma members_two (fuel : nat) (k1 v1 k2 v2 : string) :
  members (S (S fuel))
    (String dquote (escape k1 +:+ String dquote (String colon (String dquote
      (escape v1 +:+ String dquote (String comma (String dquote
        (escape k2 +:+ String dquote (String colon (String dquote
          (escape v2 +:+ String dquote (String rbrace EmptyString))))))))))))
  = Some [(k1, JStr v1); (k2, JStr v2)].
Proof.
  cbn [members].
  repeat first
    [ rewrite Ascii.eqb_refl
    | rewrite read_string_escape
    | progress cbn [mbind option_bind expect fmap option_fmap option_map] ].
  reflexivity.
Qed.

Lemma stringify_cookie (sid cid : string) :
  stringify (cookieObj sid cid)
  = String lbrace (String dquote (escape "sessionID" +:+ String dquote (String colon
      (String dquote (escape sid +:+ String dquote (String comma (String dquote
        (escape "clientID" +:+ String dquote (String colon (String dquote
          (escape cid +:+ String dquote (String rbrace EmptyString)))))))))))).
Proof.
  unfold cookieObj, stringify, quote, join. cbn [map fold_left fst snd].
  cbn [escape special]. simpl.
  rewrite !string_app_assoc. simpl.
  rewrite !string_app_assoc. reflexivity.
Qed.

Lemma reference_laws : PlatformLaws Reference.platform.
Proof.
  split.
  - intros k sid cid. simpl. by rewrite strip_prefix_app.
  - intros sid cid.
    change (parse (stringify (cookieObj sid cid)) = Normal (cookieObj sid cid)).
    rewrite stringify_cookie. unfold parse.
    change (String.eqb (String lbrace ?s) "null") with false.
    cbv iota.
    set (body := String dquote _).
    replace (String.eqb (String lbrace body) "{}") with false by reflexivity.
    cbn [expect]. rewrite Ascii.eqb_refl.
    assert (Hlen : exists n, String.length body = S (S n)).
    { unfold body. simpl. eauto. }
    destruct Hlen as [n ->]. unfold body.
    rewrite (members_two n "sessionID" sid "clientID" cid). reflexivity.
Qed.
End ReferenceLaws.

(** ** Looking a session up from its cookie *)
Section FindSession.
Context {P : Platform}.

Lemma array_filter_pure {A : Type} (f : A -> bool) (l : list A) :
  array_filter (fun x => Normal (f x)) l = Normal (List.filter f l).
Proof.
  induction l as [|x l IH]; [reflexivity|].
  simpl. rewrite IH. simpl. by destruct (f x).
Qed.

Lemma filter_all_false {A : Type} (f : A -> bool) (l : list A) :
  (forall x, In x l -> f x = false) -> List.filter f l = [].
Proof.
  induction l as [|x l IH]; intros H; [reflexivity|].
  simpl. rewrite (H x) by (left; reflexivity).
  apply IH. intros y Hy. apply H. by right.
Qed.

Lemma filter_nil_false {A : Type} (f : A -> bool) (l : list A) (x : A) :
  List.filter f l = [] -> In x l -> f x = false.
Proof.
  intros Hnil Hx. destruct (f x) eqn:Hfx; [|reflexivity].
  assert (Hin : In x (List.filter f l)) by (apply List.filter_In; by split).
  rewrite Hnil in Hin. destruct Hin.
Qed.

Lemma try_catch_none {A : Type} (c : completion (option A)) :
  exists m, try_catch c (fun _ => Normal None) = Normal m.
Proof. destruct c; simpl; eauto. Qed.

(** C3. [findSession] completes normally on every cookie text, whatever
    the state and the platform. When the decipher throws, when
    [JSON.parse] throws, and when no live session carries the ID of the
    parsed payload, what it returns is [null]. *)
Theorem findSession_never_throws (st : State) (sessionCookie : string) :
  (exists m, findSession st sessionCookie = Normal m) /\
  (forall e, decrypt st sessionCookie = Throw e ->
     findSession st sessionCookie = Normal None) /\
  (forall plain e, decrypt st sessionCookie = Normal plain ->
     JSON_parse plain = Throw e ->
     findSession st sessionCookie = Normal None) /\
  (forall plain obj, decrypt st sessionCookie = Normal plain ->
     JSON_parse plain = Normal obj ->
     (forall r v, In r (sessions st) -> get_prop obj "sessionID" = Normal v ->
                  sessionID_is st v r = false) ->
     findSession st sessionCookie = Normal None).
Proof.
  split; [apply try_catch_none|].
  split; [|split].
  - intros e He. unfold findSession. by rewrite He.
  - intros plain e Hd Hp. unfold findSession. rewrite Hd. simpl. by rewrite Hp.
  - intros plain obj Hd Hp Hnone. unfold findSession. rewrite Hd. simpl.
    rewrite Hp. simpl.
    destruct (get_prop obj "sessionID") as [v|e] eqn:Hg.
    + simpl. rewrite array_filter_pure. simpl.
      rewrite filter_all_false; [reflexivity|].
      intros r Hr. by apply Hnone.
    + destruct (sessions st) as [|r l]; reflexivity.
Qed.

End FindSession.

Section FindSessionExamples.
Import Reference Examples.

(** A cookie that is no ciphertext of this secret; one that decrypts to
    text that is no JSON; one that decrypts to [null], whose property read
    throws; one for an ID no session has. *)
Example findSession_runs :
  findSession st1 "tampered" = Normal None /\
  findSession st1 (encrypt st1 "{sessionID") = Normal None /\
  findSession st1 (encrypt st1 "null") = Normal None /\
  findSession st1 (encrypt st1 (stringify (cookieObj "zz" "id0"))) = Normal None.
Proof. repeat split. Qed.

End FindSessionExamples.

(** ** A cookie leads back to its session *)
Section CookieRoundTrip.
Context {P : Platform}.
Import Spec Process.

Lemma decrypt_encrypt {L : PlatformLaws P} (st : State) (sid cid : string) :
  decrypt st (encrypt st (JSON_stringify (cookieObj sid cid)))
  = Normal (JSON_stringify (cookieObj sid cid)).
Proof.
  unfold decrypt, encrypt.
  pose proof (decipher_cipher (secret st) sid cid) as H. simpl in H.
  rewrite H. reflexivity.
Qed.

(** Replacing a session by one with the same ID does not change which
    references the lookup callback accepts. *)
Lemma sessionID_is_insert (st : State) (r r' : ref) (s s' : Session) (v : value) :
  store st !! r = Some s ->
  sessionID s' = sessionID s ->
  sessionID_is (set_store (<[r := s']> (store st)) st) v r' = sessionID_is st v r'.
Proof.
  intros Hs Hid. unfold sessionID_is. simpl.
  destruct (decide (r = r')) as [<-|Hne].
  - rewrite list_lookup_insert_eq by (by eapply lookup_lt_Some).
    by rewrite Hs, Hid.
  - by rewrite list_lookup_insert_ne.
Qed.

Lemma findSession_of_payload {L : PlatformLaws P} (st : State) (sid cid : string)
    (r : ref) :
  session_with_id st sid = Some r ->
  findSession st (encrypt st (JSON_stringify (cookieObj sid cid)))
  = Normal (Some {| mdsmCookie := JSON_stringify (cookieObj sid cid); session := r |}).
Proof.
  intros Hr. unfold findSession.
  rewrite decrypt_encrypt. simpl.
  rewrite parse_stringify. simpl.
  rewrite array_filter_pure. simpl.
  unfold session_with_id in Hr.
  destruct (List.filter _ (sessions st)) as [|r0 l]; [discriminate|].
  simpl in Hr. by injection Hr as ->.
Qed.

(** A live session whose ID no other live session carries is the one the
    lookup by that ID finds. *)
Lemma session_with_id_unique (st : State) (r : ref) (s : Session) :
  In r (sessions st) ->
  store st !! r = Some s ->
  (forall r' s', In r' (sessions st) -> store st !! r' = Some s' ->
                 sessionID s' = sessionID s -> r' = r) ->
  session_with_id st (sessionID s) = Some r.
Proof.
  intros Hin Hs Huniq. unfold session_with_id.
  destruct (List.filter (sessionID_is st (Some (JStr (sessionID s)))) (sessions st))
    as [|x l] eqn:Hf.
  - pose proof (filter_nil_false _ _ r Hf Hin) as Hr.
    unfold sessionID_is in Hr. rewrite Hs in Hr. simpl in Hr.
    by rewrite String.eqb_refl in Hr.
  - simpl. f_equal.
    assert (Hx : In x (List.filter (sessionID_is st (Some (JStr (sessionID s))))
                         (sessions st))) by (rewrite Hf; by left).
    apply List.filter_In in Hx as [Hx Hm]. unfold sessionID_is in Hm.
    destruct (store st !! x) as [s'|] eqn:Hs'; [|discriminate].
    simpl in Hm. apply String.eqb_eq in Hm. by apply (Huniq x s').
Qed.

(** C1, as the code has it. Let [r] be a session of the store that the
    lookup by its own ID finds, that is, a live session with no live
    session of the same ID before it in [sessions]. Adding a client to it
    returns a cookie payload, and [findSession] on the encrypted payload
    returns [r] with that payload. The cookie [addClient] of mdsm.js hands
    out for [r] is that ciphertext. *)
Theorem findSession_encrypt_addClient {L : PlatformLaws P}
    (st : State) (r : ref) (s : Session) (ncd : NewClientData) :
  store st !! r = Some s ->
  session_with_id st (sessionID s) = Some r ->
  exists payload st',
    call_addClient r ncd st = (Normal payload, st') /\
    findSession st' (encrypt st' payload)
    = Normal (Some {| mdsmCookie := payload; session := r |}) /\
    Mdsm.addClient {| nci_session := ByObject r;
                      nci_clientClass := ncd_clientClass ncd;
                      nci_clientData := ncd_clientData ncd |} st
    = (Normal (Some (encrypt st' payload)), st').
Proof.
  intros Hs Hfirst.
  assert (Hcall : call_addClient r ncd st
    = (Normal (JSON_stringify (cookieObj (sessionID s) (randomHex (draws st)))),
       set_draws (S (draws st))
         (set_store (<[r := fst (SessionJs.addClient s (randomHex (draws st)) ncd)]>
                       (store st)) st))).
  { unfold call_addClient. rewrite Hs. reflexivity. }
  eexists _, _. split; [exact Hcall|]. split.
  - apply findSession_of_payload.
    unfold session_with_id in *. simpl.
    rewrite <- Hfirst. f_equal.
    apply filter_ext. intros r'.
    exact (sessionID_is_insert st r r' s
             (fst (SessionJs.addClient s (randomHex (draws st)) ncd)) _ Hs eq_refl).
  - unfold Mdsm.addClient. simpl.
    destruct ncd as [cls dat]. simpl in *. rewrite Hcall. reflexivity.
Qed.

End CookieRoundTrip.

Section CookieRoundTripExamples.
Import Reference Examples Spec Process.

(** The hypotheses of C1 hold for the session of [st1]. *)
Lemma findSession_encrypt_addClient_witness :
  exists payload st',
    call_addClient 0%nat client_A st1 = (Normal payload, st') /\
    findSession st' (encrypt st' payload)
    = Normal (Some {| mdsmCookie := payload; session := 0%nat |}) /\
    Mdsm.addClient {| nci_session := ByObject 0%nat;
                      nci_clientClass := "class_A";
                      nci_clientData := foo_bar |} st1
    = (Normal (Some (encrypt st' payload)), st').
Proof.
  apply (findSession_encrypt_addClient (P := Reference.platform)
           (L := reference_laws) st1 0%nat
           session_a0 client_A).
  - vm_compute. reflexivity.
  - vm_compute. reflexivity.
Defined.

(** C1 as stated fails: two sessions created with one ID are both live,
    a client is added to the second, and the cookie leads to the first. *)
Lemma findSession_duplicate_id :
  let '(r1, s1) := createSession 0 info_a st0 in
  let '(r2, s2) := createSession 0 info_a s1 in
  let '(c, s3) := call_addClient r2 client_A s2 in
  In r2 (sessions s3) /\
  (exists s, store s3 !! r2 = Some s /\ attemptSelfDestruct s 0 = false) /\
  exists payload,
    c = Normal payload /\
    findSession s3 (encrypt s3 payload)
    = Normal (Some {| mdsmCookie := payload; session := r1 |}) /\
    findSession s3 (encrypt s3 payload)
    <> Normal (Some {| mdsmCookie := payload; session := r2 |}).
Proof.
  vm_compute. split; [tauto|]. split; [eauto|].
  eexists. split; [reflexivity|]. split; [reflexivity | discriminate].
Qed.

(** The scenario of the specification: a session with 10 seconds to live
    and data [bar: baz], a client of class [class_A] with data [foo: bar];
    the cookie leads to the session, and the request for
    [/api/doSomething1/] calls the handler with both. *)
Example scenario_run :
  let '(r, s1) := createSession 0 info_a st0 in
  let '(c, s2) := Mdsm.addClient {| nci_session := ByObject r;
                                    nci_clientClass := "class_A";
                                    nci_clientData := foo_bar |} s1 in
  exists cookie found session,
    c = Normal (Some cookie) /\
    findSession s2 cookie = Normal (Some found) /\
    Mdsm.session found = r /\
    store s2 !! r = Some session /\
    processRequest session (req "/api/doSomething1/") (mdsmCookie found)
    = ([HandlerCall "api/doSomething1" bar_baz foo_bar (req "/api/doSomething1/")
          (mdsmCookie found);
        ResEnd ("Your session is a. Your MDSM cookie is " +:+ mdsmCookie found)],
       Normal tt).
Proof. vm_compute. eexists _, _, _. repeat split. Qed.

End CookieRoundTripExamples.

(** ** Creating and renewing sessions *)
Section Sessions.
Context {P : Platform}.
Import Process.

(** What [createSession] leaves behind. *)
Lemma createSession_fields (now : Z) (info : NewSessionInfo) (st : State) :
  exists sid,
    let r := fst (createSession now info st) in
    let st' := snd (createSession now info st) in
    r = List.length (store st) /\
    store st' = (store st ++
      [{| sessionID := sid;
          expiryDate := num_add (Fin now) (toNumber (nsi_timeToLive info));
          clientList := [];
          validEndpoints := endpoints st;
          sessionData := if negb (truthy (nsi_sessionData info))
                         then null else nsi_sessionData info |}])%list /\
    sessions st' = (sessions st ++ [r])%list /\
    timers st' = (timers st ++ [(toNumber (nsi_timeToLive info), r)])%list /\
    secret st' = secret st /\
    endpoints st' = endpoints st.
Proof.
  unfold createSession.
  destruct (negb (truthy_string (nsi_sessionID info))); eexists; repeat split.
Qed.

(** A session made by [createSession] is in the store and in [sessions];
    when no live session had its ID, the lookup by that ID finds it. *)
Lemma createSession_found (now : Z) (info : NewSessionInfo) (st : State) :
  sessions_allocated st ->
  forall r st', createSession now info st = (r, st') ->
  exists s,
    store st' !! r = Some s /\ In r (sessions st') /\
    (session_with_id st (sessionID s) = None ->
     session_with_id st' (sessionID s) = Some r).
Proof.
  intros Hwf r st' Hc.
  destruct (createSession_fields now info st)
    as (sid & Hr & Hst & Hse & _ & _ & _).
  rewrite Hc in Hr, Hst, Hse. simpl in Hr, Hst, Hse.
  eexists. split; [|split].
  - rewrite Hst, Hr. by apply list_lookup_middle.
  - rewrite Hse. apply in_or_app. right. by left.
  - simpl. intros Hnone. unfold session_with_id in *.
    rewrite Hse, List.filter_app.
    rewrite (filter_all_false _ (sessions st)).
    + simpl. unfold sessionID_is. rewrite Hst, Hr.
      rewrite list_lookup_middle by reflexivity. simpl.
      by rewrite String.eqb_refl.
    + intros r0 Hr0.
      transitivity (sessionID_is st (Some (JStr sid)) r0).
      * unfold sessionID_is. rewrite Hst.
        by rewrite lookup_app_l by (by apply Hwf).
      * eapply filter_nil_false; [|exact Hr0].
        by destruct (List.filter _ (sessions st)).
Qed.

(** Unfolds the call of a step and splits on what it looks up. *)
Ltac step_unfold :=
  unfold renewSession, Mdsm.addClient, call_addClient, call_extendSessionLife,
    expireSession;
  repeat match goal with
    | |- context [session_with_id ?st ?sid] => destruct (session_with_id st sid)
    | |- context [nci_session ?i] => destruct (nci_session i)
    | |- context [store ?st !! ?r] => destruct (store st !! r)
    | |- context [attemptSelfDestruct ?s ?n] => destruct (attemptSelfDestruct s n)
    end;
  simpl.

(** What a call can do to the state: the secret and the endpoints stay, the
    store does not shrink, and [sessions] stays, or gains the reference of
    the object just created, or loses one element. *)
Lemma step_effect (st st' : State) :
  step st st' ->
  secret st' = secret st /\ endpoints st' = endpoints st /\
  (List.length (store st) <= List.length (store st'))%nat /\
  (sessions st' = sessions st \/
   (sessions st' = (sessions st ++ [List.length (store st)])%list /\
    List.length (store st') = S (List.length (store st))) \/
   exists i, sessions st' = splice1 (sessions st) i).
Proof.
  intros Hstep.
  destruct Hstep as [now info st|sid extra st|info st|r ncd st|r ms st|now r st].
  - destruct (createSession_fields now info st)
      as (sid & Hr & Hst & Hse & _ & Hk & He).
    simpl in Hr, Hst, Hse, Hk, He.
    rewrite Hk, He, Hst, Hse, Hr, length_app. simpl.
    repeat split; [lia|]. right. left. split; [reflexivity | lia].
  - step_unfold; rewrite ?length_alter; repeat split; auto.
  - step_unfold; rewrite ?length_insert; repeat split; auto.
  - step_unfold; rewrite ?length_insert; repeat split; auto.
  - step_unfold; rewrite ?length_alter; repeat split; auto.
  - step_unfold; repeat split; eauto.
Qed.

Lemma splice1_sublist {A : Type} (l : list A) (i : Z) : splice1 l i `sublist_of` l.
Proof.
  unfold splice1. set (n := Z.to_nat _).
  transitivity (take n l ++ drop n l)%list; [|by rewrite take_drop].
  apply sublist_app; [reflexivity|].
  replace (S n) with (n + 1)%nat by lia. rewrite <- drop_drop. apply sublist_drop.
Qed.

(** The invariant is kept by every call: [sessions] only holds references
    to objects of the store, each once. *)
Lemma step_well_formed (st st' : State) :
  step st st' -> well_formed st -> well_formed st'.
Proof.
  intros Hstep [Hwf Hnd].
  destruct (step_effect st st' Hstep) as (_ & _ & Hlen & [Hse|[[Hse Hst]|[i Hse]]]);
    unfold well_formed, sessions_allocated; rewrite Hse.
  - split; [|exact Hnd]. intros r Hr. specialize (Hwf r Hr). lia.
  - split.
    + intros r Hr. apply in_app_or in Hr as [Hr|[<-|[]]]; [|lia].
      specialize (Hwf r Hr). lia.
    + apply NoDup_app. split; [exact Hnd|]. split; [|apply NoDup_singleton].
      intros r Hin Hnew. apply list_elem_of_singleton in Hnew. subst r.
      apply list_elem_of_In in Hin. specialize (Hwf _ Hin). lia.
  - pose proof (splice1_sublist (sessions st) i) as Hsub. split.
    + intros r Hr. apply list_elem_of_In in Hr.
      pose proof (elem_of_sublist _ _ _ Hr Hsub) as Hr'.
      apply list_elem_of_In in Hr'. specialize (Hwf r Hr'). lia.
    + by eapply sublist_NoDup.
Qed.

Lemma steps_well_formed (st st' : State) :
  rtc step st st' -> well_formed st -> well_formed st'.
Proof.
  induction 1 as [|st mid st' Hstep _ IH]; [tauto|].
  intros Hwf. apply IH. by eapply step_well_formed.
Qed.

(** C6, at the code. When the configuration gives no time-to-live, the
    guard of the default is not taken and the expiry date is [NaN], not the
    creation time: [attemptSelfDestruct] then refuses at every time, and
    the timer is set with the missing delay. *)
Theorem createSession_without_ttl (now : Z) (sid : option string) (sData : value)
    (st : State) :
  let info := {| nsi_sessionID := sid; nsi_timeToLive := None;
                 nsi_sessionData := sData |} in
  exists s,
    store (snd (createSession now info st)) !! fst (createSession now info st) = Some s /\
    expiryDate s = NaN /\
    expiryDate s <> Fin now /\
    (forall t : Z, attemptSelfDestruct s t = false) /\
    In (NaN, fst (createSession now info st)) (timers (snd (createSession now info st))).
Proof.
  intros info.
  destruct (createSession_fields now info st)
    as (sid' & Hr & Hst & Hse & Hti & _ & _).
  simpl in Hr, Hst, Hse, Hti.
  eexists. split; [|split; [|split; [|split]]].
  - rewrite Hst, Hr. by apply list_lookup_middle.
  - reflexivity.
  - discriminate.
  - reflexivity.
  - rewrite Hti. apply in_or_app. right. by left.
Qed.

(** With a time-to-live the expiry date is the creation time plus it; with
    0 the session can be destroyed at once. *)
Lemma createSession_with_ttl (now ttl : Z) (sid : option string) (sData : value)
    (st : State) :
  let info := {| nsi_sessionID := sid; nsi_timeToLive := Some ttl;
                 nsi_sessionData := sData |} in
  exists s,
    store (snd (createSession now info st)) !! fst (createSession now info st) = Some s /\
    expiryDate s = Fin (now + ttl) /\
    (forall t : Z, attemptSelfDestruct s t = (now + ttl <=? t)).
Proof.
  intros info.
  destruct (createSession_fields now info st)
    as (sid' & Hr & Hst & Hse & Hti & _ & _).
  simpl in Hr, Hst, Hse, Hti.
  eexists. split; [|split].
  - rewrite Hst, Hr. by apply list_lookup_middle.
  - reflexivity.
  - intros t. unfold attemptSelfDestruct. simpl.
    destruct (Z.leb_spec (now + ttl - t) 0), (Z.leb_spec (now + ttl) t); lia || reflexivity.
Qed.

Lemma session_with_id_stored (st : State) (sid : string) (r : ref) :
  session_with_id st sid = Some r ->
  exists s, store st !! r = Some s /\ sessionID s = sid /\ In r (sessions st).
Proof.
  unfold session_with_id. intros H.
  destruct (List.filter _ (sessions st)) as [|x l] eqn:Hf; [discriminate|].
  injection H as ->.
  assert (Hin : In r (List.filter (sessionID_is st (Some (JStr sid))) (sessions st)))
    by (rewrite Hf; by left).
  apply List.filter_In in Hin as [Hin Hm]. unfold sessionID_is in Hm.
  destruct (store st !! r) as [s|]; [|discriminate].
  exists s. split; [reflexivity|]. split; [|exact Hin].
  simpl in Hm. by apply String.eqb_eq in Hm.
Qed.

(** C7, at the code. The first live session with the ID has its expiry
    date extended by the amount given. When no live session has the ID,
    the call throws the TypeError of a method call on [undefined] and
    changes nothing. *)
Theorem renewSession_live_or_TypeError (st : State) (sid : string) (extra : Z) :
  (forall r, session_with_id st sid = Some r ->
     exists s,
       store st !! r = Some s /\
       fst (renewSession sid extra st) = Normal tt /\
       store (snd (renewSession sid extra st)) !! r
       = Some (extendSessionLife s extra) /\
       expiryDate (extendSessionLife s extra) = num_add (expiryDate s) (Fin extra)) /\
  (session_with_id st sid = None ->
     renewSession sid extra st
     = (Throw (TypeError "Cannot read properties of undefined (reading 'extendSessionLife')"),
        st)).
Proof.
  split.
  - intros r Hr. destruct (session_with_id_stored st sid r Hr) as (s & Hs & _ & _).
    exists s. unfold renewSession, call_extendSessionLife. rewrite Hr. simpl.
    split; [exact Hs|]. split; [reflexivity|]. split; [|reflexivity].
    by rewrite list_lookup_alter_eq, Hs.
  - intros Hnone. unfold renewSession. by rewrite Hnone.
Qed.

End Sessions.

(** ** The cipher of the cookie *)
Section Cipher.
Context {P : Platform}.
Import Process.

Lemma encrypt_secret_only (st1 st2 : State) (plaintext : string) :
  secret st1 = secret st2 -> encrypt st1 plaintext = encrypt st2 plaintext.
Proof. unfold encrypt. by intros ->. Qed.

(** No call replaces the secret drawn at start-up. *)
Lemma step_secret (st st' : State) : step st st' -> secret st' = secret st.
Proof. intros Hstep. by destruct (step_effect st st' Hstep) as [Hk _]. Qed.

Lemma steps_secret (st st' : State) : rtc step st st' -> secret st' = secret st.
Proof.
  induction 1 as [|st mid st' Hstep _ IH]; [reflexivity|].
  rewrite IH. by apply step_secret.
Qed.

(** C4, as the code has it. [encrypt] draws nothing: at any two moments of
    one process it gives the same ciphertext for the same plaintext. *)
Theorem encrypt_deterministic (st1 st2 : State) (plaintext : string) :
  rtc step st1 st2 -> encrypt st1 plaintext = encrypt st2 plaintext.
Proof.
  intros Hsteps. apply encrypt_secret_only. symmetry. by apply steps_secret.
Qed.

End Cipher.

Section CipherExamples.
Import Reference Examples Process.

(** Before and after creating a session the cookie text is encrypted to
    the same ciphertext. *)
Lemma encrypt_deterministic_witness : encrypt st0 cookie_a = encrypt st1 cookie_a.
Proof.
  apply (encrypt_deterministic (P := Reference.platform) st0 st1 cookie_a).
  apply rtc_once. exact (step_createSession 0 info_a st0).
Defined.

(** C4 as stated fails: on no platform and for no plaintext do two calls of
    [encrypt] in one process give different ciphertexts. *)
Lemma encrypt_never_differs :
  ~ exists (P : Platform) (st1 st2 : State) (plaintext : string),
      rtc step st1 st2 /\ encrypt st1 plaintext <> encrypt st2 plaintext.
Proof.
  intros (P & st1 & st2 & plaintext & Hsteps & Hne).
  apply Hne. apply encrypt_secret_only. symmetry. by apply steps_secret.
Qed.

End CipherExamples.

(** ** Clients and requests of one session *)
Section SessionMethods.
Context {P : Platform}.
Import Process.

Lemma filter_nonempty {A : Type} (f : A -> bool) (l : list A) (x : A) :
  In x l -> f x = true -> (0 < List.length (List.filter f l))%nat.
Proof.
  intros Hx Hfx.
  assert (Hin : In x (List.filter f l)) by (apply List.filter_In; by split).
  destruct (List.filter f l); [destruct Hin | simpl; lia].
Qed.

(** C8, at the code. With a client of that ID in the session the call
    throws a ReferenceError and the client stays; with none, the call
    returns and nothing changes. *)
Theorem removeClient_present_throws (this : Session) (cID : string) :
  ((exists c, In c (clientList this) /\ clientID c = cID) ->
   removeClient this cID = (this, Throw (ReferenceError "clientList"))) /\
  ((forall c, In c (clientList this) -> clientID c <> cID) ->
   removeClient this cID = (this, Normal tt)).
Proof.
  unfold removeClient. split.
  - intros (c & Hc & Hid).
    pose proof (filter_nonempty (fun c => String.eqb (clientID c) cID)
                  (clientList this) c Hc) as Hlen.
    simpl in Hlen. rewrite Hid, String.eqb_refl in Hlen. specialize (Hlen eq_refl).
    destruct (Z.ltb_spec 0 (Z.of_nat (List.length
      (List.filter (fun c => String.eqb (clientID c) cID) (clientList this)))));
      [reflexivity | lia].
  - intros Hnone. rewrite filter_all_false; [reflexivity|].
    intros c Hc. apply String.eqb_neq. by apply Hnone.
Qed.

(** Whenever the handler is called, a client and an endpoint were found
    and the class of the client is one the endpoint allows. *)
Lemma handler_call_authorized (this : Session) (req : Request) (mdsmCookie : string)
    (e : Event) :
  In e (fst (processRequest this req mdsmCookie)) -> is_handler_call e = true ->
  exists client endpoint,
    find_client this mdsmCookie = Normal (Some client) /\
    find_endpoint this req = Some endpoint /\
    includes (allowedClassTypes endpoint) (clientClass client) = true.
Proof.
  unfold processRequest.
  destruct (find_client this mdsmCookie) as [[client|]|err];
    destruct (find_endpoint this req) as [endpoint|]; simpl; try tauto.
  destruct (includes (allowedClassTypes endpoint) (clientClass client)) eqn:Hinc.
  - intros _ _. by exists client, endpoint.
  - simpl. intros [<-|[]]. discriminate.
Qed.

(** C2. When the class of the client found is not among the classes the
    endpoint found allows, no call of a handler is among what
    [processRequest] does, whatever the session and the cookie. *)
Theorem processRequest_unauthorized_no_handler (this : Session) (req : Request)
    (mdsmCookie : string) (client : Client) (endpoint : Endpoint) :
  find_client this mdsmCookie = Normal (Some client) ->
  find_endpoint this req = Some endpoint ->
  includes (allowedClassTypes endpoint) (clientClass client) = false ->
  forall e, In e (fst (processRequest this req mdsmCookie)) -> is_handler_call e = false.
Proof.
  intros Hc He Hinc e Hin.
  destruct (is_handler_call e) eqn:Hcall; [|reflexivity].
  destruct (handler_call_authorized this req mdsmCookie e Hin Hcall)
    as (c' & ep' & Hc' & He' & Hinc').
  congruence.
Qed.

(** C9, at the code. When the cookie names no client of the session, the
    call throws a TypeError, from reading a property of [undefined], and
    calls neither a handler, nor [next], nor [res.end]. *)
Theorem processRequest_unknown_client (this : Session) (req : Request)
    (mdsmCookie : string) :
  find_client this mdsmCookie = Normal None ->
  exists msg, processRequest this req mdsmCookie = ([], Throw (TypeError msg)).
Proof.
  intros Hc. unfold processRequest. rewrite Hc.
  destruct (find_endpoint this req); eauto.
Qed.

(** C10, as the code has it. With a client and an endpoint found: when the
    class is not allowed, the only thing done is [res.end] with the session
    ID and the cookie text, and the call returns; when it is allowed and the
    handler returns, the handler call is followed by the same [res.end]; when
    the handler throws, the call throws the same and nothing is ended. [next]
    is never called. *)
Theorem processRequest_ends_response (this : Session) (req : Request)
    (mdsmCookie : string) (client : Client) (endpoint : Endpoint) :
  find_client this mdsmCookie = Normal (Some client) ->
  find_endpoint this req = Some endpoint ->
  let body := "Your session is " +:+ sessionID this
              +:+ ". Your MDSM cookie is " +:+ mdsmCookie in
  let call := HandlerCall (url endpoint) (sessionData this) (clientData client)
                          req mdsmCookie in
  let outcome := handler endpoint (sessionData this) (clientData client)
                         req mdsmCookie in
  (includes (allowedClassTypes endpoint) (clientClass client) = false ->
   processRequest this req mdsmCookie = ([ResEnd body], Normal tt)) /\
  (includes (allowedClassTypes endpoint) (clientClass client) = true ->
   outcome = Normal tt ->
   processRequest this req mdsmCookie = ([call; ResEnd body], Normal tt)) /\
  (includes (allowedClassTypes endpoint) (clientClass client) = true ->
   forall err, outcome = Throw err ->
   processRequest this req mdsmCookie = ([call], Throw err)).
Proof.
  intros Hc He body call outcome.
  unfold processRequest. rewrite Hc, He.
  split; [|split].
  - by intros ->.
  - intros -> Hout. fold outcome. by rewrite Hout.
  - intros -> err Hout. fold outcome. by rewrite Hout.
Qed.

End SessionMethods.

Section SessionMethodExamples.
Import Reference Examples Process.

(** A client of class [class_A] asks for the endpoint of [class_B]. *)
Lemma processRequest_unauthorized_no_handler_witness :
  forallb (fun e => negb (is_handler_call e))
    (fst (processRequest session_a (req "/api/doSomething2/") cookie_a)) = true.
Proof.
  apply forallb_forall. intros e He. apply negb_true_iff.
  apply (processRequest_unauthorized_no_handler (P := Reference.platform)
           session_a (req "/api/doSomething2/") cookie_a
           {| clientID := "id0"; clientClass := "class_A"; clientData := foo_bar |}
           doSomething2);
    [reflexivity | reflexivity | reflexivity | exact He].
Defined.

(** The cookie of a client that the session does not have. *)
Lemma processRequest_unknown_client_witness :
  exists msg,
    processRequest session_a (req "/api/doSomething1/") cookie_gone
    = ([], Throw (TypeError msg)).
Proof.
  apply (processRequest_unknown_client (P := Reference.platform)
           session_a (req "/api/doSomething1/") cookie_gone).
  reflexivity.
Defined.

Example processRequest_unknown_client_run :
  processRequest session_a (req "/api/doSomething1/") cookie_gone
  = ([], Throw (TypeError "Cannot read properties of undefined (reading 'clientClass')")).
Proof. reflexivity. Qed.

(** The scenario of the specification: [class_A] on [/api/doSomething1/]. *)
Lemma processRequest_ends_response_witness :
  processRequest session_a (req "/api/doSomething1/") cookie_a
  = ([HandlerCall "api/doSomething1" bar_baz foo_bar (req "/api/doSomething1/") cookie_a;
      ResEnd ("Your session is a. Your MDSM cookie is " +:+ cookie_a)],
     Normal tt).
Proof.
  apply (processRequest_ends_response (P := Reference.platform)
           session_a (req "/api/doSomething1/") cookie_a
           {| clientID := "id0"; clientClass := "class_A"; clientData := foo_bar |}
           doSomething1);
    reflexivity.
Defined.

(** C10 as stated fails: a client and an endpoint are found and the class
    is allowed, the handler throws, and the response is not ended. *)
Lemma processRequest_handler_throws :
  find_client session_a cookie_a
  = Normal (Some {| clientID := "id0"; clientClass := "class_A"; clientData := foo_bar |}) /\
  find_endpoint session_a (req "/api/doSomething3/") = Some doSomething3 /\
  existsb is_res_end
    (fst (processRequest session_a (req "/api/doSomething3/") cookie_a)) = false /\
  snd (processRequest session_a (req "/api/doSomething3/") cookie_a)
  = Throw (Error "handler failed").
Proof. repeat split. Qed.

(** Removing the one client of the session. *)
Example removeClient_run :
  removeClient session_a "id0" = (session_a, Throw (ReferenceError "clientList")).
Proof. reflexivity. Qed.

(** Creating a session with no time-to-live at time 5000. *)
Example createSession_without_ttl_run :
  store (snd (createSession 5000 info_no_ttl st0)) !! fst (createSession 5000 info_no_ttl st0)
  = Some {| sessionID := "b"; expiryDate := NaN; clientList := [];
            validEndpoints := [doSomething1; doSomething2; doSomething3];
            sessionData := bar_baz |}.
Proof. reflexivity. Qed.

(** Renewing a session that does not exist. *)
Example renewSession_run :
  renewSession "nope" 1000 st1
  = (Throw (TypeError "Cannot read properties of undefined (reading 'extendSessionLife')"),
     st1).
Proof. reflexivity. Qed.

End SessionMethodExamples.

(** ** Expiry *)
Section Expiry.
Context {P : Platform}.
Import Process.

Lemma indexOf_bounds (l : list nat) (x : nat) :
  -1 <= indexOf l x < Z.of_nat (List.length l).
Proof.
  induction l as [|y l IH]; simpl; [lia|].
  destruct (Nat.eqb x y); [lia|].
  destruct (Z.ltb_spec (indexOf l x) 0); lia.
Qed.

Lemma indexOf_lookup (l : list nat) (x : nat) :
  In x l -> 0 <= indexOf l x /\ l !! Z.to_nat (indexOf l x) = Some x.
Proof.
  induction l as [|y l IH]; simpl; [tauto|].
  intros Hin. destruct (Nat.eqb_spec x y) as [->|Hne]; [split; [lia | reflexivity]|].
  destruct Hin as [->|Hin]; [congruence|].
  destruct (IH Hin) as [Hpos Hlook].
  destruct (Z.ltb_spec (indexOf l x) 0); [lia|].
  split; [lia|].
  replace (Z.to_nat (indexOf l x + 1)) with (S (Z.to_nat (indexOf l x))) by lia.
  exact Hlook.
Qed.

(** Splicing at the index of an element of a list without repetition
    removes that element and nothing else. *)
Lemma splice1_indexOf (l : list nat) (x : nat) :
  In x l -> NoDup l ->
  ~ In x (splice1 l (indexOf l x)) /\
  forall y, y <> x -> (In y (splice1 l (indexOf l x)) <-> In y l).
Proof.
  intros Hin Hnd.
  destruct (indexOf_lookup l x Hin) as [Hpos Hlook].
  pose proof (indexOf_bounds l x) as Hb.
  unfold splice1.
  destruct (Z.ltb_spec (indexOf l x) 0); [lia|].
  replace (Z.min (indexOf l x) (Z.of_nat (List.length l))) with (indexOf l x) by lia.
  set (i := Z.to_nat (indexOf l x)) in *.
  pose proof (take_drop_middle l i x Hlook) as Hmid.
  rewrite <- Hmid in Hnd.
  apply NoDup_app in Hnd as (_ & Hdisj & Hnd2).
  apply NoDup_cons in Hnd2 as [Hnotin _].
  split.
  - intros Hx. apply in_app_or in Hx as [Hx|Hx].
    + apply list_elem_of_In in Hx. apply (Hdisj x Hx). left.
    + apply list_elem_of_In in Hx. by apply Hnotin.
  - intros y Hy. rewrite <- Hmid at 3. rewrite !in_app_iff. simpl.
    split; [tauto|]. intros [?|[?|?]]; [tauto | congruence | tauto].
Qed.

Lemma array_filter_incl {A : Type} (p : A -> completion bool) (l kept : list A) :
  array_filter p l = Normal kept -> forall x, In x kept -> In x l.
Proof.
  revert kept. induction l as [|y l IH]; simpl; intros kept Hk x Hx.
  - injection Hk as <-. destruct Hx.
  - destruct (p y) as [keep|e]; [|discriminate]. simpl in Hk.
    destruct (array_filter p l) as [kept'|e]; [|discriminate]. simpl in Hk.
    injection Hk as <-.
    destruct keep; [destruct Hx as [->|Hx]|]; eauto.
Qed.

(** What [findSession] returns is an element of [sessions]. *)
Lemma findSession_live (st : State) (sessionCookie : string) (m : Match) :
  findSession st sessionCookie = Normal (Some m) -> In (session m) (sessions st).
Proof.
  unfold findSession.
  destruct (decrypt st sessionCookie) as [plain|e]; [|discriminate]. simpl.
  destruct (JSON_parse plain) as [obj|e]; [|discriminate]. simpl.
  destruct (array_filter _ (sessions st)) as [kept|e] eqn:Hf; [|discriminate].
  simpl. destruct kept as [|r kept]; [discriminate|].
  intros Hm. injection Hm as <-. simpl.
  eapply array_filter_incl; [exact Hf | by left].
Qed.

(** [attemptSelfDestruct] answers true exactly when the expiry date is a
    time not after [now]; never for [NaN]. *)
Lemma attemptSelfDestruct_iff (this : Session) (now : Z) :
  attemptSelfDestruct this now = true <->
  exists e, expiryDate this = Fin e /\ e <= now.
Proof.
  unfold attemptSelfDestruct. destruct (expiryDate this) as [|e]; simpl.
  - split; [discriminate | by intros (e & He & _)].
  - destruct (Z.leb_spec (e - now) 0) as [Hle|Hgt]; split.
    + intros _. exists e. split; [reflexivity | lia].
    + reflexivity.
    + discriminate.
    + intros (e' & He & Hle). injection He as <-. lia.
Qed.

(** X1. When the timer of a live session fires at or after its expiry
    date, the session leaves [sessions], the other sessions stay, and no
    cookie leads to it any more. *)
Theorem expireSession_destroys (st : State) (now : Z) (r : ref) (s : Session) :
  well_formed st ->
  In r (sessions st) ->
  store st !! r = Some s ->
  attemptSelfDestruct s now = true ->
  ~ In r (sessions (expireSession now r st)) /\
  (forall r', r' <> r ->
     (In r' (sessions (expireSession now r st)) <-> In r' (sessions st))) /\
  (forall sessionCookie m,
     findSession (expireSession now r st) sessionCookie = Normal (Some m) ->
     session m <> r).
Proof.
  intros [_ Hnd] Hin Hs Hexp.
  assert (Hst : sessions (expireSession now r st)
                = splice1 (sessions st) (indexOf (sessions st) r)).
  { unfold expireSession. by rewrite Hs, Hexp. }
  destruct (splice1_indexOf (sessions st) r Hin Hnd) as [Hgone Hrest].
  rewrite Hst. split; [exact Hgone|]. split; [exact Hrest|].
  intros sessionCookie m Hm Heq. apply findSession_live in Hm.
  rewrite Hst, Heq in Hm. by apply Hgone.
Qed.

End Expiry.

Section ExpiryExamples.
Import Reference Examples Process.

Lemma well_formed_st1 : well_formed st1.
Proof.
  split.
  - intros r [<-|[]]. vm_compute. lia.
  - vm_compute. apply NoDup_singleton.
Qed.

(** The session of [st1] expires at 10000. *)
Lemma expireSession_destroys_witness :
  ~ In 0%nat (sessions (expireSession 10000 0%nat st1)) /\
  (forall r', r' <> 0%nat ->
     (In r' (sessions (expireSession 10000 0%nat st1)) <-> In r' (sessions st1))) /\
  (forall sessionCookie m,
     findSession (expireSession 10000 0%nat st1) sessionCookie = Normal (Some m) ->
     session m <> 0%nat).
Proof.
  apply (expireSession_destroys (P := Reference.platform) st1 10000 0%nat session_a0).
  - exact well_formed_st1.
  - vm_compute. tauto.
  - reflexivity.
  - reflexivity.
Defined.

End ExpiryExamples.

(** ** More on URL normalisation *)
Section TrimURLMore.
Import Spec.

Lemma string_app_nil_r (s : string) : s +:+ EmptyString = s.
Proof. induction s as [|c s IH]; [reflexivity | simpl; by rewrite IH]. Qed.

Lemma strip_trailing_snoc (s : string) :
  strip_trailing (s +:+ "/") = s.
Proof.
  induction s as [|c s IH]; [reflexivity|].
  simpl String.append.
  destruct (s +:+ "/") as [|d t] eqn:Hs.
  - destruct s; discriminate.
  - change (strip_trailing (String c (String d t)))
      with (String c (strip_trailing (String d t))).
    by rewrite IH.
Qed.

Lemma strip_trailing_cases (s : string) :
  (ends_with_slash s = false /\ strip_trailing s = s) \/
  (ends_with_slash s = true /\ s = strip_trailing s +:+ "/").
Proof.
  induction s as [|c s IH]; [by left|].
  destruct s as [|d s].
  - simpl. destruct (Ascii.eqb_spec c "/") as [->|Hne]; [by right | by left].
  - change (strip_trailing (String c (String d s)))
      with (String c (strip_trailing (String d s))).
    change (ends_with_slash (String c (String d s)))
      with (ends_with_slash (String d s)).
    destruct IH as [[He Hs]|[He Hs]].
    + left. by rewrite Hs.
    + right. split; [exact He|].
      change (String c (String d s) = String c (strip_trailing (String d s) +:+ "/")).
      by rewrite <- Hs.
Qed.

(** X2. [trimURL] only ever removes separators: every URL is its trimmed
    form with nothing or one [/] before it and nothing or one [/] after
    it. *)
Theorem trimURL_decompose (u : string) :
  exists a b : string,
    (a = "" \/ a = "/") /\ (b = "" \/ b = "/") /\
    u = a +:+ Mdsm.trimURL u +:+ b.
Proof.
  rewrite trimURL_normalize. unfold normalize.
  assert (Hlead : exists a, (a = "" \/ a = "/") /\ u = a +:+ strip_leading u).
  { destruct u as [|c u]; [exists ""; by split; [left|]|].
    simpl. destruct (Ascii.eqb_spec c "/") as [->|Hne].
    - exists "/". by split; [right|].
    - exists "". by split; [left|]. }
  destruct Hlead as (a & Ha & Hu).
  destruct (strip_trailing_cases (strip_leading u)) as [[_ Hs]|[_ Hs]].
  - exists a, "". split; [exact Ha|]. split; [by left|].
    by rewrite Hs, string_app_nil_r.
  - exists a, "/". split; [exact Ha|]. split; [by right|].
    by rewrite <- Hs.
Qed.

Lemma ends_with_slash_snoc (s : string) : ends_with_slash (s +:+ "/") = true.
Proof.
  induction s as [|c s IH]; [reflexivity|].
  simpl String.append. destruct (s +:+ "/") as [|d t] eqn:Hs.
  - destruct s; discriminate.
  - exact IH.
Qed.

Lemma normalize_snoc (x : string) :
  starts_with_slash x = false -> normalize (x +:+ "/") = x.
Proof.
  intros Hs. unfold normalize.
  assert (Hl : strip_leading (x +:+ "/") = x +:+ "/" \/ x = "").
  { destruct x as [|c x]; [by right|]. left. simpl in *. by rewrite Hs. }
  destruct Hl as [Hl| ->]; [|reflexivity].
  rewrite Hl. apply strip_trailing_snoc.
Qed.

(** X3. A URL with no separator at either end is what [trimURL] gives for
    it alone and for it with a [/] added before, after, or on both
    sides. *)
Theorem trimURL_wrapped (x : string) :
  starts_with_slash x = false ->
  ends_with_slash x = false ->
  Mdsm.trimURL x = x /\
  Mdsm.trimURL ("/" +:+ x) = x /\
  Mdsm.trimURL (x +:+ "/") = x /\
  Mdsm.trimURL ("/" +:+ x +:+ "/") = x.
Proof.
  intros Hs He. rewrite !trimURL_normalize.
  split; [by apply normalize_fixed|].
  split; [unfold normalize; simpl; by apply strip_trailing_id|].
  split; [by apply normalize_snoc|].
  unfold normalize. simpl. apply strip_trailing_snoc.
Qed.

Lemma trimURL_wrapped_witness :
  Mdsm.trimURL "api/doSomething1" = "api/doSomething1" /\
  Mdsm.trimURL ("/" +:+ "api/doSomething1") = "api/doSomething1" /\
  Mdsm.trimURL ("api/doSomething1" +:+ "/") = "api/doSomething1" /\
  Mdsm.trimURL ("/" +:+ "api/doSomething1" +:+ "/") = "api/doSomething1".
Proof. apply (trimURL_wrapped "api/doSomething1"); reflexivity. Defined.

End TrimURLMore.

(** ** Clients and their cookies *)
Section ClientCookies.
Context {P : Platform}.
Import Spec.




End ClientCookies.

Section ClientCookiesExamples.
Import Reference Examples Spec.


End ClientCookiesExamples.

(** ** Registering endpoints *)
Section Endpoints.
Import Router.

Lemma isValidEndpoint_iff (st : State) (u : string) :
  isValidEndpoint st u = true <->
  exists ep, In ep (endpoints st) /\ url ep = Mdsm.trimURL u.
Proof.
  unfold isValidEndpoint.
  set (f := fun ep => String.eqb (url ep) (Mdsm.trimURL u)).
  split.
  - intros Hv. destruct (List.filter f (endpoints st)) as [|ep l] eqn:Hf;
      [discriminate|].
    assert (Hin : In ep (List.filter f (endpoints st))) by (rewrite Hf; by left).
    apply List.filter_In in Hin as [Hin Hm]. exists ep. split; [exact Hin|].
    by apply String.eqb_eq in Hm.
  - intros (ep & Hin & Hu).
    assert (Hin' : In ep (List.filter f (endpoints st))).
    { apply List.filter_In. split; [exact Hin|]. unfold f. rewrite Hu.
      apply String.eqb_refl. }
    by destruct (List.filter f (endpoints st)).
Qed.

(** X5. After [init], a URL is a valid endpoint exactly when it trims to
    what the URL of one of the configured endpoints trims to; the list of
    live sessions, the timers and the secret are as before. *)
Theorem init_isValidEndpoint (ic : InitConfig) (cfg : Config) (st : State) :
  let st' := snd (fst (init ic cfg st)) in
  (forall u, isValidEndpoint st' u = true <->
     exists ep, In ep (ic_endpoints ic) /\ Mdsm.trimURL (url ep) = Mdsm.trimURL u) /\
  sessions st' = sessions st /\ timers st' = timers st /\ secret st' = secret st.
Proof.
  assert (Hst : snd (fst (init ic cfg st))
    = set_endpoints (map (fun endpoint =>
                            {| url := Mdsm.trimURL (url endpoint);
                               allowedClassTypes := allowedClassTypes endpoint;
                               handler := handler endpoint |})
                         (ic_endpoints ic)) st).
  { unfold init. by destruct (ic_mode ic) as [[|]|]. }
  simpl. rewrite Hst. split; [|by repeat split].
  intros u. rewrite isValidEndpoint_iff. simpl. split.
  - intros (ep & Hin & Hu). apply in_map_iff in Hin as (ep0 & <- & Hin0).
    exists ep0. by split.
  - intros (ep & Hin & Hu).
    exists {| url := Mdsm.trimURL (url ep);
              allowedClassTypes := allowedClassTypes ep; handler := handler ep |}.
    split; [|exact Hu].
    apply in_map_iff. exists ep. by split.
Qed.

End Endpoints.

(** ** Reading the cookie header *)
Section CookieHeader.
Context {U : UriCodec}.
Import Router Cookies.

(** Joining the pieces of a split with the separator gives the text
    back. *)
Lemma split_go_join (sep : ascii) (s : string) :
  join (String sep EmptyString) (fst (split_go sep s) :: snd (split_go sep s)) = s.
Proof.
  induction s as [|c s IH]; [reflexivity|].
  simpl. destruct (split_go sep s) as [piece pieces]. simpl in IH.
  destruct (Ascii.eqb_spec c sep) as [->|Hne]; simpl.
  - f_equal. exact IH.
  - destruct pieces as [|p ps]; simpl in *; by rewrite <- IH.
Qed.

Lemma split_go_before_after (sep : ascii) (s : string) :
  fst (split_go sep s) = before_first sep s /\
  join (String sep EmptyString) (snd (split_go sep s)) = after_first sep s.
Proof.
  induction s as [|c s [IHb IHa]]; [by split|].
  pose proof (split_go_join sep s) as Hj.
  simpl. destruct (split_go sep s) as [piece pieces]. simpl in IHb, IHa, Hj.
  destruct (Ascii.eqb c sep); simpl; [by split | by rewrite IHb, IHa].
Qed.

Lemma forEach_cookie_cons (cookie : string) (rest : list string)
    (list : gmap string string) :
  forEach_cookie (cookie :: rest) list
  = bind (decodeURI (cookie_value cookie)) (fun value =>
    forEach_cookie rest (obj_set (cookie_name cookie) value list)).
Proof.
  destruct (split_go_before_after "=" cookie) as [Hb Ha].
  unfold cookie_value, cookie_name. rewrite <- Hb, <- Ha.
  simpl. unfold split. by destruct (split_go "=" cookie).
Qed.





(** The loop stops at the first piece whose value does not decode. *)
Lemma forEach_cookie_throws (before after : list string) (cookie : string)
    (list0 : gmap string string) (e : error) :
  (forall b, In b before -> exists v, decodeURI (cookie_value b) = Normal v) ->
  decodeURI (cookie_value cookie) = Throw e ->
  forEach_cookie (before ++ cookie :: after) list0 = Throw e.
Proof.
  revert list0. induction before as [|b before IH]; intros list0 Hok Hbad.
  - simpl app. rewrite forEach_cookie_cons, Hbad. reflexivity.
  - simpl app. rewrite forEach_cookie_cons.
    destruct (Hok b) as [v Hv]; [by left|]. rewrite Hv. simpl.
    apply IH; [|exact Hbad]. intros b' Hb'. apply Hok. by right.
Qed.

End CookieHeader.

(** ** The request router *)
Section RouterProperties.
Context {P : Platform} {U : UriCodec}.
Import Router Cookies Spec Process.

Lemma split_no_sep (sep : ascii) (s : string) :
  has_char sep s = false -> split sep s = [s].
Proof.
  unfold split. induction s as [|c s IH]; [reflexivity|].
  simpl. intros Hc. apply orb_false_iff in Hc as [Hc Hs].
  specialize (IH Hs). destruct (split_go sep s) as [piece pieces].
  rewrite Hc. by injection IH as -> ->.
Qed.

(** A header with the one cookie [mdsm]. *)
Lemma getCookieListFromReq_mdsm (u c c' : string) :
  has_char ";" c = false ->
  decodeURI c = Normal c' ->
  getCookieListFromReq {| hr_url := u; hr_cookie := Some ("mdsm=" +:+ c) |}
  = Normal {[ "mdsm" := c' ]}.
Proof.
  intros Hsep Hdec. unfold getCookieListFromReq. simpl.
  rewrite split_no_sep by exact Hsep.
  rewrite forEach_cookie_cons.
  change (cookie_value (String "m" (String "d" (String "s" (String "m" (String "=" c))))))
    with c.
  rewrite Hdec. reflexivity.
Qed.

(** X7. A handler is called through the public [processRequest] only in
    Middleware mode, for a registered URL, with an [mdsm] cookie that
    [findSession] resolves to a live session, a client of that session the
    cookie names, and an endpoint that allows the class of the client. *)
Theorem router_handler_call_authorized (cfg : Config) (st : State)
    (req : HttpRequest) (has_next : bool) (e : Event) :
  In (Did e) (fst (processRequestAsMiddleware cfg st req has_next)) ->
  is_handler_call e = true ->
  mode cfg = Some Middleware /\
  isValidEndpoint st (Mdsm.trimURL (hr_url req)) = true /\
  exists cookieList c found s client endpoint,
    getCookieListFromReq req = Normal cookieList /\
    cookieList !! "mdsm" = Some c /\
    findSession st c = Normal (Some found) /\
    In (session found) (sessions st) /\
    store st !! session found = Some s /\
    find_client s (mdsmCookie found) = Normal (Some client) /\
    find_endpoint s (to_request req) = Some endpoint /\
    includes (allowedClassTypes endpoint) (clientClass client) = true.
Proof.
  unfold processRequestAsMiddleware, processRequest, call_next.
  intros Hin Hcall.
  assert (Hnot : forall code text, ~ In (Did e) [Did (NextCall code text)]).
  { intros code text [Heq|[]]. injection Heq as <-. discriminate. }
  destruct (mode cfg) as [[|]|] eqn:Hmode;
    try (destruct has_next; simpl in Hin; [by apply Hnot in Hin | destruct Hin]).
  split; [reflexivity|].
  destruct (isValidEndpoint st (Mdsm.trimURL (hr_url req))) eqn:Hvalid; simpl in Hin;
    [|destruct has_next; simpl in Hin; [by apply Hnot in Hin | destruct Hin]].
  split; [reflexivity|].
  destruct (getCookieListFromReq req) as [cookieList|err] eqn:Hlist; [|destruct Hin].
  destruct (cookieList !! "mdsm") as [c|] eqn:Hc; simpl in Hin;
    [|destruct has_next; simpl in Hin; [by apply Hnot in Hin | destruct Hin]].
  destruct (negb (String.eqb c "")); simpl in Hin;
    [|destruct has_next; simpl in Hin; [by apply Hnot in Hin | destruct Hin]].
  destruct (findSession st c) as [[found|]|err] eqn:Hfind;
    [| destruct has_next; simpl in Hin; [by apply Hnot in Hin | destruct Hin]
     | destruct Hin].
  destruct (store st !! session found) as [s|] eqn:Hs; [|destruct Hin].
  destruct (SessionJs.processRequest s (to_request req) (mdsmCookie found))
    as [events completion] eqn:Hrun.
  simpl in Hin. apply in_map_iff in Hin as (e' & Heq & Hin').
  injection Heq as ->.
  destruct (handler_call_authorized s (to_request req) (mdsmCookie found) e)
    as (client & endpoint & Hclient & Hep & Hinc); [by rewrite Hrun | exact Hcall |].
  exists cookieList, c, found, s, client, endpoint.
  repeat split; try done. by apply findSession_live in Hfind.
Qed.

(** X8. Called without [next], as the HTTP server calls the request
    listener, the router has no way to report an error: for a URL that is
    not registered, for an [mdsm] cookie that leads to no session, and for
    a request with no [mdsm] cookie outside Port mode, the call throws a
    TypeError and does nothing to the response. *)
Theorem requestListener_without_next (cfg : Config) (st : State) (req : HttpRequest) :
  (isValidEndpoint st (Mdsm.trimURL (hr_url req)) = false \/
   (exists cookieList,
      isValidEndpoint st (Mdsm.trimURL (hr_url req)) = true /\
      getCookieListFromReq req = Normal cookieList /\
      ((exists c, cookieList !! "mdsm" = Some c /\ c <> "" /\
                  findSession st c = Normal None) \/
       (truthy_string (cookieList !! "mdsm") = false /\ mode cfg <> Some Port)))) ->
  requestListener cfg st req false = ([], Throw (TypeError "next is not a function")).
Proof.
  unfold requestListener, processRequest, call_next.
  intros [Hinvalid|(cookieList & Hvalid & Hlist & [(c & Hc & Hne & Hfind)|[Hno Hmode]])].
  - by rewrite Hinvalid.
  - rewrite Hvalid, Hlist, Hc. simpl.
    destruct (String.eqb_spec c "") as [->|_]; [congruence|]. simpl.
    by rewrite Hfind.
  - rewrite Hvalid, Hlist, Hno. simpl.
    by destruct (mode cfg) as [[|]|].
Qed.

(** X9. A cookie of the request whose value does not decode makes the
    router throw what [decodeURI] throws, whichever cookie it is: [next] is
    not called and the response is not touched. *)
Theorem malformed_cookie_throws (cfg : Config) (st : State) (req : HttpRequest)
    (has_next : bool) (h cookie : string) (before after : list string) (e : error) :
  isValidEndpoint st (Mdsm.trimURL (hr_url req)) = true ->
  hr_cookie req = Some h ->
  h <> "" ->
  split ";" h = (before ++ cookie :: after)%list ->
  (forall b, In b before -> exists v, decodeURI (cookie_value b) = Normal v) ->
  decodeURI (cookie_value cookie) = Throw e ->
  processRequest cfg st req has_next = ([], Throw e).
Proof.
  intros Hvalid Hh Hne Hsplit Hok Hbad.
  unfold processRequest, getCookieListFromReq. rewrite Hvalid, Hh. simpl.
  destruct (String.eqb_spec h "") as [->|_]; [congruence|]. simpl.
  by rewrite Hsplit, (forEach_cookie_throws before after cookie ∅ e Hok Hbad).
Qed.

(** X10. The router trims the URL twice before it looks for an endpoint,
    the session once. When the URL still starts or ends with a separator
    after one trimming, and the endpoints of the session have none at
    their ends, the session finds no endpoint: a request the router has
    accepted, with a cookie that leads to a session, makes
    [processRequest] throw. *)
Theorem doubled_separator_request_throws (cfg : Config) (st : State)
    (req : HttpRequest) (has_next : bool) (cookieList : gmap string string)
    (c : string) (found : Match) (s : Session) :
  isValidEndpoint st (Mdsm.trimURL (hr_url req)) = true ->
  getCookieListFromReq req = Normal cookieList ->
  cookieList !! "mdsm" = Some c ->
  c <> "" ->
  findSession st c = Normal (Some found) ->
  store st !! session found = Some s ->
  (forall ep, In ep (validEndpoints s) ->
     starts_with_slash (url ep) = false /\ ends_with_slash (url ep) = false) ->
  starts_with_slash (Mdsm.trimURL (hr_url req)) = true \/
  ends_with_slash (Mdsm.trimURL (hr_url req)) = true ->
  exists err, processRequest cfg st req has_next = ([], Throw err).
Proof.
  intros Hvalid Hlist Hc Hne Hfind Hs Hnorm Hslash.
  assert (Hep : find_endpoint s (to_request req) = None).
  { unfold find_endpoint. rewrite filter_all_false; [reflexivity|].
    intros ep Hin. apply String.eqb_neq. intros Heq.
    destruct (Hnorm ep Hin) as [H1 H2]. simpl in Heq.
    change (url ep = Mdsm.trimURL (hr_url req)) in Heq.
    rewrite Heq in H1, H2. destruct Hslash; congruence. }
  unfold processRequest. rewrite Hvalid, Hlist, Hc. simpl.
  destruct (String.eqb_spec c "") as [->|_]; [congruence|]. simpl.
  rewrite Hfind, Hs. unfold SessionJs.processRequest. rewrite Hep.
  destruct (find_client s (mdsmCookie found)); simpl; eauto.
Qed.

(** X11. When the URL has no separator left at its ends after one
    trimming, a URL the router accepts is one a session holding the
    endpoints of the module finds an endpoint for. *)
Theorem valid_url_endpoint_found (st : State) (s : Session) (req : HttpRequest) :
  isValidEndpoint st (Mdsm.trimURL (hr_url req)) = true ->
  validEndpoints s = endpoints st ->
  starts_with_slash (Mdsm.trimURL (hr_url req)) = false ->
  ends_with_slash (Mdsm.trimURL (hr_url req)) = false ->
  exists ep,
    find_endpoint s (to_request req) = Some ep /\
    In ep (endpoints st) /\ url ep = Mdsm.trimURL (hr_url req).
Proof.
  intros Hvalid Heps Hs He.
  apply isValidEndpoint_iff in Hvalid as (ep0 & Hin0 & Hu0).
  assert (Hidem : Mdsm.trimURL (Mdsm.trimURL (hr_url req)) = Mdsm.trimURL (hr_url req)).
  { rewrite (trimURL_normalize (Mdsm.trimURL (hr_url req))). by apply normalize_fixed. }
  rewrite Hidem in Hu0.
  unfold find_endpoint. rewrite Heps. simpl.
  destruct (List.filter _ (endpoints st)) as [|ep l] eqn:Hf.
  - pose proof (filter_nil_false _ _ ep0 Hf Hin0) as Hno. simpl in Hno.
    rewrite Hu0, String.eqb_refl in Hno. discriminate.
  - exists ep. split; [reflexivity|].
    assert (Hin : In ep (List.filter
      (fun ep => String.eqb (url ep) (SessionJs.trimURL (hr_url req))) (endpoints st)))
      by (rewrite Hf; by left).
    apply List.filter_In in Hin as [Hin Hm]. split; [exact Hin|].
    by apply String.eqb_eq in Hm.
Qed.

End RouterProperties.

(** ** From the cookie handed out to the handler *)
Section Dispatch.
Context {P : Platform} {U : UriCodec}.
Import Router Cookies Spec Process.

Lemma call_addClient_stored (st : State) (r : ref) (s : Session) (ncd : NewClientData) :
  store st !! r = Some s ->
  call_addClient r ncd st
  = (Normal (snd (SessionJs.addClient s (randomHex (draws st)) ncd)),
     set_draws (S (draws st))
       (set_store (<[r := fst (SessionJs.addClient s (randomHex (draws st)) ncd)]>
                     (store st)) st)).
Proof. intros Hs. unfold call_addClient. by rewrite Hs. Qed.

Lemma findSession_after_addClient {L : PlatformLaws P}
    (st : State) (r : ref) (s : Session) (ncd : NewClientData) :
  store st !! r = Some s ->
  session_with_id st (sessionID s) = Some r ->
  findSession (snd (call_addClient r ncd st))
    (encrypt (snd (call_addClient r ncd st))
       (snd (SessionJs.addClient s (randomHex (draws st)) ncd)))
  = Normal (Some {| mdsmCookie := snd (SessionJs.addClient s (randomHex (draws st)) ncd);
                    session := r |}).
Proof.
  intros Hs Hfirst. rewrite (call_addClient_stored st r s ncd Hs).
  apply findSession_of_payload.
  unfold session_with_id in *. simpl. rewrite <- Hfirst. f_equal.
  apply filter_ext. intros r'.
  exact (sessionID_is_insert st r r' s
           (fst (SessionJs.addClient s (randomHex (draws st)) ncd)) _ Hs eq_refl).
Qed.

(** X12. The whole way of a cookie. A client is added to a live session
    that is the first of its ID, with a client ID the session does not
    have yet, and the ciphertext comes back in the header [mdsm=...] of a
    request for a registered URL, in Middleware mode; the ciphertext has
    no [;] in it and decodes to itself. Then the router hands the request
    to that session with the cookie text, the session resolves the client
    just added, and when the endpoint found allows the class of the client
    and its handler returns, the handler is called with the data of the
    session and of the client, and the response is ended. *)
Theorem granted_cookie_dispatches {L : PlatformLaws P}
    (st : State) (r : ref) (s : Session) (ncd : NewClientData)
    (u : string) (prt : option Z) (has_next : bool) :
  store st !! r = Some s ->
  session_with_id st (sessionID s) = Some r ->
  (forall c, In c (clientList s) -> clientID c <> randomHex (draws st)) ->
  let st' := snd (call_addClient r ncd st) in
  let s' := fst (SessionJs.addClient s (randomHex (draws st)) ncd) in
  let payload := snd (SessionJs.addClient s (randomHex (draws st)) ncd) in
  let cookie := encrypt st' payload in
  let req := {| hr_url := u; hr_cookie := Some ("mdsm=" +:+ cookie) |} in
  let cfg := {| mode := Some Middleware; port := prt |} in
  has_char ";" cookie = false ->
  decodeURI cookie = Normal cookie ->
  cookie <> "" ->
  isValidEndpoint st' (Mdsm.trimURL u) = true ->
  store st' !! r = Some s' /\
  find_client s' payload
  = Normal (Some {| clientID := randomHex (draws st);
                    clientClass := ncd_clientClass ncd;
                    clientData := ncd_clientData ncd |}) /\
  processRequestAsMiddleware cfg st' req has_next
  = (map Did (fst (SessionJs.processRequest s' (to_request req) payload)),
     snd (SessionJs.processRequest s' (to_request req) payload)) /\
  (forall ep,
     find_endpoint s' (to_request req) = Some ep ->
     includes (allowedClassTypes ep) (ncd_clientClass ncd) = true ->
     handler ep (sessionData s) (ncd_clientData ncd) (to_request req) payload
     = Normal tt ->
     processRequestAsMiddleware cfg st' req has_next
     = ([Did (HandlerCall (url ep) (sessionData s) (ncd_clientData ncd)
                          (to_request req) payload);
         Did (ResEnd ("Your session is " +:+ sessionID s
                      +:+ ". Your MDSM cookie is " +:+ payload))],
        Normal tt)).
Proof.
  intros Hs Hfirst Hfresh st' s' payload cookie req cfg Hsep Hdec Hne Hvalid.
  assert (Hstore : store st' !! r = Some s').
  { unfold st'. rewrite (call_addClient_stored st r s ncd Hs). simpl.
    apply list_lookup_insert_eq. by eapply lookup_lt_Some. }
  assert (Hclient : find_client s' payload
    = Normal (Some {| clientID := randomHex (draws st);
                      clientClass := ncd_clientClass ncd;
                      clientData := ncd_clientData ncd |})).
  { unfold s', payload, find_client, SessionJs.addClient. simpl.
    rewrite parse_stringify. simpl.
    rewrite array_filter_pure. simpl. rewrite List.filter_app.
    rewrite (filter_all_false _ (clientList s)).
    - simpl. by rewrite String.eqb_refl.
    - intros c Hc. apply String.eqb_neq. by apply Hfresh. }
  assert (Hrun : processRequestAsMiddleware cfg st' req has_next
    = (map Did (fst (SessionJs.processRequest s' (to_request req) payload)),
       snd (SessionJs.processRequest s' (to_request req) payload))).
  { unfold processRequestAsMiddleware, processRequest. simpl mode. cbv iota.
    change (hr_url req) with u. rewrite Hvalid. simpl negb. cbv iota.
    unfold req. rewrite (getCookieListFromReq_mdsm u cookie cookie Hsep Hdec).
    rewrite lookup_singleton_eq. simpl.
    destruct (String.eqb_spec cookie "") as [Hc|_]; [congruence|]. simpl.
    unfold cookie at 1, st' at 1 2, payload.
    rewrite (findSession_after_addClient st r s ncd Hs Hfirst). simpl.
    fold st'. rewrite Hstore. fold payload.
    match goal with
    | |- context [SessionJs.processRequest ?a ?b ?c] =>
        by destruct (SessionJs.processRequest a b c)
    end. }
  split; [exact Hstore|]. split; [exact Hclient|]. split; [exact Hrun|].
  intros ep Hep Hinc Hh. rewrite Hrun.
  unfold SessionJs.processRequest. rewrite Hclient, Hep. simpl.
  rewrite Hinc.
  change (sessionData s') with (sessionData s).
  rewrite Hh. reflexivity.
Qed.

End Dispatch.

Section RouterExamples.
Import Reference PlainCodec Examples Requests Router Cookies Spec Process.


Lemma router_handler_call_authorized_witness :
  mode middleware = Some Middleware /\
  isValidEndpoint st1_client (Mdsm.trimURL "/api/doSomething1/") = true /\
  exists cookieList c found s client endpoint,
    getCookieListFromReq (with_cookie "/api/doSomething1/") = Normal cookieList /\
    cookieList !! "mdsm" = Some c /\
    findSession st1_client c = Normal (Some found) /\
    In (session found) (sessions st1_client) /\
    store st1_client !! session found = Some s /\
    find_client s (mdsmCookie found) = Normal (Some client) /\
    find_endpoint s (to_request (with_cookie "/api/doSomething1/")) = Some endpoint /\
    includes (allowedClassTypes endpoint) (clientClass client) = true.
Proof.
  apply (router_handler_call_authorized (P := Reference.platform) (U := plain_codec)
           middleware st1_client (with_cookie "/api/doSomething1/") true
           (HandlerCall "api/doSomething1" bar_baz foo_bar
              (to_request (with_cookie "/api/doSomething1/")) cookie_a)).
  - vm_compute. by left.
  - reflexivity.
Defined.

Lemma requestListener_without_next_witness :
  requestListener middleware st1_client unregistered false
  = ([], Throw (TypeError "next is not a function")).
Proof.
  apply (requestListener_without_next (P := Reference.platform) (U := plain_codec)
           middleware st1_client unregistered).
  left. reflexivity.
Defined.

Lemma malformed_cookie_throws_witness :
  processRequest middleware st1_client stray_percent true
  = ([], Throw (Error "URI malformed")).
Proof.
  apply (malformed_cookie_throws (P := Reference.platform) (U := plain_codec)
           middleware st1_client stray_percent true "theme=50%; mdsm=abc"
           "theme=50%" [] [" mdsm=abc"]);
    [reflexivity | reflexivity | discriminate | reflexivity | intros b [] | reflexivity].
Defined.

Lemma doubled_separator_request_throws_witness :
  exists err,
    processRequest middleware st1_client (with_cookie "//api/doSomething1//") true
    = ([], Throw err).
Proof.
  apply (doubled_separator_request_throws (P := Reference.platform) (U := plain_codec)
           middleware st1_client (with_cookie "//api/doSomething1//") true
           {[ "mdsm" := granted ]} granted
           {| mdsmCookie := cookie_a; session := 0%nat |} session_a).
  - reflexivity.
  - vm_compute. reflexivity.
  - reflexivity.
  - discriminate.
  - vm_compute. reflexivity.
  - reflexivity.
  - intros ep [<-|[<-|[<-|[]]]]; by split.
  - left. reflexivity.
Defined.

Lemma valid_url_endpoint_found_witness :
  exists ep,
    find_endpoint session_a (to_request (with_cookie "/api/doSomething1/")) = Some ep /\
    In ep (endpoints st1_client) /\
    url ep = Mdsm.trimURL "/api/doSomething1/".
Proof.
  apply (valid_url_endpoint_found st1_client session_a
           (with_cookie "/api/doSomething1/")); reflexivity.
Defined.

End RouterExamples.

Section DispatchExamples.
Import Reference PlainCodec Examples Requests Router Cookies Spec Process.

(** The scenario of the specification, through the router. *)
Lemma granted_cookie_dispatches_witness :
  processRequestAsMiddleware middleware st1_client (with_cookie "/api/doSomething1/") true
  = ([Did (HandlerCall "api/doSomething1" bar_baz foo_bar
             (to_request (with_cookie "/api/doSomething1/")) cookie_a);
      Did (ResEnd ("Your session is a. Your MDSM cookie is " +:+ cookie_a))],
     Normal tt).
Proof.
  assert (H1 : store st1 !! 0%nat = Some session_a0) by reflexivity.
  assert (H2 : session_with_id st1 (sessionID session_a0) = Some 0%nat) by reflexivity.
  assert (H3 : forall c, In c (clientList session_a0) ->
                         clientID c <> randomHex (draws st1)) by (intros c []).
  destruct (granted_cookie_dispatches (P := Reference.platform) (U := plain_codec)
              (L := reference_laws) st1 0%nat session_a0 client_A
              "/api/doSomething1/" None true H1 H2 H3)
    as (_ & _ & _ & Hfinal);
    [reflexivity | reflexivity | discriminate | reflexivity |].
  apply (Hfinal doSomething1); reflexivity.
Defined.

End DispatchExamples.

(** ** Sessions and their timers *)
Section Timers.
Context {P : Platform}.
Import EventLoop Process.

(** Unfolds a call and splits on what it looks up. *)
Ltac run_unfold :=
  unfold renewSession, Mdsm.addClient, call_addClient, call_extendSessionLife,
    Router.init, Router.set_endpoints;
  repeat match goal with
    | |- context [session_with_id ?st ?sid] => destruct (session_with_id st sid)
    | |- context [nci_session ?i] => destruct (nci_session i)
    | |- context [store ?st !! ?r] => destruct (store st !! r)
    | |- context [Router.ic_mode ?i] => destruct (Router.ic_mode i) as [[|]|]
    end;
  simpl.

(** The calls other than [createSession] and the timers leave [sessions]
    and the timers as they are; [createSession] adds one reference and one
    timer for it. *)
Lemma run_sessions_timers (st st' : State) :
  run st st' ->
  (sessions st' = sessions st /\ timers st' = timers st) \/
  (exists d, sessions st' = (sessions st ++ [List.length (store st)])%list /\
             timers st' = (timers st ++ [(d, List.length (store st))])%list) \/
  (exists i now, st' = fire i now st).
Proof.
  intros Hrun.
  destruct Hrun as [now info st|sid extra st|info st|r ncd st|r ms st|ic cfg st|i now st].
  - right. left.
    destruct (createSession_fields now info st) as (sid & Hr & _ & Hse & Hti & _).
    simpl in Hr, Hse, Hti. rewrite Hse, Hti, Hr. eauto.
  - left. run_unfold; by split.
  - left. run_unfold; by split.
  - left. run_unfold; by split.
  - left. run_unfold; by split.
  - left. run_unfold; by split.
  - right. right. eauto.
Qed.

Lemma run_well_formed (st st' : State) :
  run st st' -> well_formed st -> well_formed st'.
Proof.
  intros Hrun Hwf.
  destruct Hrun as [now info st|sid extra st|info st|r ncd st|r ms st|ic cfg st|i now st].
  - eapply step_well_formed; [apply step_createSession | exact Hwf].
  - eapply step_well_formed; [apply step_renewSession | exact Hwf].
  - eapply step_well_formed; [apply step_addClient | exact Hwf].
  - eapply step_well_formed; [apply step_session_addClient | exact Hwf].
  - eapply step_well_formed; [apply step_session_extend | exact Hwf].
  - run_unfold; exact Hwf.
  - unfold fire. destruct (timers st !! i) as [[d r]|]; [|exact Hwf].
    eapply step_well_formed; [apply step_expireSession | exact Hwf].
Qed.

(** The session of a pending timer is live and in the store. *)
Lemma timer_target_live (st : State) (i : nat) (d : num) (r : ref) :
  timers_sound st -> timers st !! i = Some (d, r) ->
  In r (sessions st) /\ exists s, store st !! r = Some s.
Proof.
  intros [[Halloc _] Hone] Hi. unfold one_timer_each in Hone.
  assert (Hin : In r (sessions st)).
  { apply list_elem_of_In. rewrite <- Hone. apply list_elem_of_fmap.
    exists (d, r). split; [reflexivity|]. by eapply list_elem_of_lookup_2. }
  split; [exact Hin|]. apply lookup_lt_is_Some. by apply Halloc.
Qed.

Lemma splice1_indexOf_Permutation (l : list nat) (x : nat) :
  In x l -> l ≡ₚ x :: splice1 l (indexOf l x).
Proof.
  intros Hin. destruct (indexOf_lookup l x Hin) as [Hpos Hlook].
  pose proof (indexOf_bounds l x) as Hb.
  unfold splice1. destruct (Z.ltb_spec (indexOf l x) 0); [lia|].
  replace (Z.min (indexOf l x) (Z.of_nat (List.length l))) with (indexOf l x) by lia.
  rewrite <- (take_drop_middle l _ x Hlook) at 1.
  by rewrite Permutation_middle.
Qed.

(** What a timer does when it fires. *)
Lemma fire_cases (st : State) (i : nat) (now : Z) (d : num) (r : ref) (s : Session) :
  timers st !! i = Some (d, r) ->
  store st !! r = Some s ->
  store (fire i now st) = store st /\
  ((attemptSelfDestruct s now = true /\
    sessions (fire i now st) = splice1 (sessions st) (indexOf (sessions st) r) /\
    timers (fire i now st) = delete i (timers st)) \/
   (attemptSelfDestruct s now = false /\
    sessions (fire i now st) = sessions st /\
    timers (fire i now st)
    = (delete i (timers st) ++ [(num_sub (expiryDate s) (Fin now), r)])%list)).
Proof.
  intros Hi Hs. unfold fire, expireSession. rewrite Hi. simpl. rewrite Hs.
  destruct (attemptSelfDestruct s now); simpl; split; auto.
Qed.

Lemma run_one_timer_each (st st' : State) :
  run st st' -> timers_sound st -> one_timer_each st'.
Proof.
  intros Hrun Hsound. pose proof Hsound as [_ Hone]. unfold one_timer_each in *.
  destruct (run_sessions_timers st st' Hrun)
    as [[Hse Hti]|[(d & Hse & Hti)|(i & now & ->)]].
  - by rewrite Hse, Hti.
  - rewrite Hse, Hti, map_app. simpl. by rewrite Hone.
  - destruct (timers st !! i) as [[d r]|] eqn:Hi;
      [|unfold fire; by rewrite Hi].
    destruct (timer_target_live st i d r Hsound Hi) as [Hin [s Hs]].
    pose proof (delete_Permutation (timers st) i (d, r) Hi) as Hdel.
    assert (Hmap : r :: map snd (delete i (timers st)) ≡ₚ sessions st).
    { rewrite <- Hone. symmetry.
      exact (fmap_Permutation snd _ _ Hdel). }
    destruct (fire_cases st i now d r s Hi Hs) as [_ [(_ & Hse & Hti)|(_ & Hse & Hti)]];
      rewrite Hse, Hti.
    + apply (Permutation_cons_inv (a := r)).
      rewrite Hmap. by apply splice1_indexOf_Permutation.
    + rewrite map_app. simpl. rewrite <- Hmap.
      by rewrite <- Permutation_cons_append.
Qed.

(** X13. Whatever the process does, every live session has exactly one
    timer pending and no timer is pending for anything else, and [sessions]
    holds each of its references once. *)
Theorem run_keeps_timers_sound (st st' : State) :
  rtc run st st' -> timers_sound st -> timers_sound st'.
Proof.
  induction 1 as [|st mid st' Hrun _ IH]; [tauto|].
  intros Hsound. apply IH. split.
  - eapply run_well_formed; [exact Hrun | apply Hsound].
  - by eapply run_one_timer_each.
Qed.

Lemma fire_store (i : nat) (now : Z) (st : State) :
  store (fire i now st) = store st.
Proof.
  unfold fire, expireSession.
  destruct (timers st !! i) as [[d r]|]; [|reflexivity]. simpl.
  destruct (store st !! r) as [s|]; [|reflexivity].
  by destruct (attemptSelfDestruct s now).
Qed.

(** No call replaces a session object by another: the object behind a
    reference keeps its ID, and an expiry date that is not a number stays
    so. *)
Lemma run_store_session (st st' : State) (r : ref) (s : Session) :
  run st st' -> store st !! r = Some s ->
  exists s', store st' !! r = Some s' /\ sessionID s' = sessionID s /\
             (expiryDate s = NaN -> expiryDate s' = NaN).
Proof.
  intros Hrun Hs.
  assert (Halter : forall r0 ms,
    exists s', alter (fun x => extendSessionLife x ms) r0 (store st) !! r = Some s' /\
               sessionID s' = sessionID s /\
               (expiryDate s = NaN -> expiryDate s' = NaN)).
  { intros r0 ms. destruct (decide (r0 = r)) as [->|Hne].
    - rewrite list_lookup_alter_eq, Hs. simpl. eexists. split; [reflexivity|].
      split; [reflexivity|]. simpl. by intros ->.
    - rewrite list_lookup_alter_ne by done. eauto. }
  assert (Hadd : forall r0 ncd,
    exists s', store (snd (call_addClient r0 ncd st)) !! r = Some s' /\
               sessionID s' = sessionID s /\
               (expiryDate s = NaN -> expiryDate s' = NaN)).
  { intros r0 ncd. unfold call_addClient.
    destruct (store st !! r0) as [s0|] eqn:Hs0; simpl; [|eauto].
    destruct (decide (r0 = r)) as [->|Hne].
    - rewrite list_lookup_insert_eq by (by eapply lookup_lt_Some).
      rewrite Hs in Hs0. injection Hs0 as <-. eexists. by repeat split.
    - rewrite list_lookup_insert_ne by done. eauto. }
  destruct Hrun as [now info st|sid extra st|info st|r0 ncd st|r0 ms st|ic cfg st|i now st].
  - destruct (createSession_fields now info st) as (sid & _ & Hst & _).
    simpl in Hst. rewrite Hst. exists s. split; [|by split].
    by apply lookup_app_l_Some.
  - unfold renewSession. destruct (session_with_id st sid); simpl; [|eauto].
    apply Halter.
  - unfold Mdsm.addClient.
    destruct (nci_session info) as [r0|sid]; simpl.
    + specialize (Hadd r0 {| ncd_clientClass := nci_clientClass info;
                             ncd_clientData := nci_clientData info |}).
      by destruct (call_addClient r0 _ st).
    + destruct (session_with_id st sid) as [r0|]; simpl; [|eauto].
      specialize (Hadd r0 {| ncd_clientClass := nci_clientClass info;
                             ncd_clientData := nci_clientData info |}).
      by destruct (call_addClient r0 _ st).
  - apply Hadd.
  - apply Halter.
  - unfold Router.init. destruct (Router.ic_mode ic) as [[|]|]; simpl; eauto.
  - rewrite fire_store. eauto.
Qed.

(** A live session stays live over a call, unless the call is its own
    timer and the session destroys itself. *)
Lemma run_session_stays_or_expires (st st' : State) (r : ref) :
  timers_sound st -> run st st' -> In r (sessions st) ->
  In r (sessions st') \/
  exists i now d s,
    st' = fire i now st /\ timers st !! i = Some (d, r) /\
    store st !! r = Some s /\ attemptSelfDestruct s now = true.
Proof.
  intros Hsound Hrun Hin.
  destruct (run_sessions_timers st st' Hrun)
    as [[Hse _]|[(d & Hse & _)|(i & now & ->)]].
  - left. by rewrite Hse.
  - left. rewrite Hse. apply in_or_app. by left.
  - destruct (timers st !! i) as [[d r']|] eqn:Hi;
      [|left; unfold fire; by rewrite Hi].
    destruct (timer_target_live st i d r' Hsound Hi) as [Hin' [s Hs]].
    destruct (fire_cases st i now d r' s Hi Hs) as [_ [(Hd & Hse & _)|(_ & Hse & _)]].
    + destruct (decide (r = r')) as [->|Hne].
      * right. by exists i, now, d, s.
      * left. rewrite Hse.
        destruct Hsound as [[_ Hnd] _].
        by apply (splice1_indexOf (sessions st) r' Hin' Hnd).
    + left. by rewrite Hse.
Qed.

(** X14. A session leaves [sessions] in one way only: its own timer fires
    at a time that is not before its expiry date. *)
Theorem session_leaves_only_by_expiry (st st' : State) (r : ref) :
  timers_sound st -> run st st' ->
  In r (sessions st) -> ~ In r (sessions st') ->
  exists i now d s e,
    st' = fire i now st /\ timers st !! i = Some (d, r) /\
    store st !! r = Some s /\ expiryDate s = Fin e /\ e <= now.
Proof.
  intros Hsound Hrun Hin Hout.
  destruct (run_session_stays_or_expires st st' r Hsound Hrun Hin)
    as [Hstay|(i & now & d & s & Hfire & Hi & Hs & Hd)]; [contradiction|].
  apply attemptSelfDestruct_iff in Hd as (e & He & Hle).
  by exists i, now, d, s, e.
Qed.

(** A live session whose expiry date is not a number stays live, with
    that expiry date. *)
Lemma nan_session_stays (st st' : State) (r : ref) (s : Session) :
  rtc run st st' ->
  timers_sound st -> In r (sessions st) ->
  store st !! r = Some s -> expiryDate s = NaN ->
  timers_sound st' /\ In r (sessions st') /\
  exists s', store st' !! r = Some s' /\ sessionID s' = sessionID s /\
             expiryDate s' = NaN.
Proof.
  intros Hrtc. revert s.
  induction Hrtc as [st|st mid st' Hrun _ IH]; intros s Hsound Hin Hs Hnan.
  - by eauto 6.
  - destruct (run_store_session st mid r s Hrun Hs) as (s1 & Hs1 & Hid1 & Hnan1).
    assert (Hin1 : In r (sessions mid)).
    { destruct (run_session_stays_or_expires st mid r Hsound Hrun Hin)
        as [Hstay|(i & now & d & s0 & _ & _ & Hs0 & Hd)]; [exact Hstay|].
      rewrite Hs in Hs0. injection Hs0 as <-.
      unfold attemptSelfDestruct in Hd. rewrite Hnan in Hd. discriminate. }
    assert (Hsound1 : timers_sound mid).
    { split; [eapply run_well_formed; [exact Hrun | apply Hsound]
             | by eapply run_one_timer_each]. }
    destruct (IH s1 Hsound1 Hin1 Hs1 (Hnan1 Hnan)) as (Hs' & Hin' & s' & Hl & Hid & He).
    split; [exact Hs'|]. split; [exact Hin'|].
    exists s'. split; [exact Hl|]. split; [congruence | exact He].
Qed.

(** X15. A session created with no time-to-live is never removed: whatever
    is called afterwards and whenever the timers fire, it is in [sessions],
    its expiry date is not a number, and a timer is pending for it. *)
Theorem session_without_ttl_never_leaves (now : Z) (info : NewSessionInfo)
    (st st' : State) :
  timers_sound st ->
  nsi_timeToLive info = None ->
  rtc run (snd (createSession now info st)) st' ->
  In (fst (createSession now info st)) (sessions st') /\
  (exists s', store st' !! fst (createSession now info st) = Some s' /\
              expiryDate s' = NaN) /\
  exists d, In (d, fst (createSession now info st)) (timers st').
Proof.
  intros Hsound Hnone Hrtc.
  destruct (createSession_fields now info st) as (sid & Hr & Hst & Hse & _).
  simpl in Hr, Hst, Hse. rewrite Hnone in Hst. simpl in Hst.
  assert (Hsound1 : timers_sound (snd (createSession now info st))).
  { split; [eapply run_well_formed; [apply run_createSession | apply Hsound]
           | eapply run_one_timer_each; [apply run_createSession | exact Hsound]]. }
  assert (Hin0 : In (fst (createSession now info st))
                    (sessions (snd (createSession now info st)))).
  { rewrite Hse. apply in_or_app. right. by left. }
  assert (Hs0 : store (snd (createSession now info st)) !! fst (createSession now info st)
                = Some {| sessionID := sid; expiryDate := NaN; clientList := [];
                          validEndpoints := endpoints st;
                          sessionData := if negb (truthy (nsi_sessionData info))
                                         then null else nsi_sessionData info |}).
  { rewrite Hst, Hr. by apply list_lookup_middle. }
  destruct (nan_session_stays _ st' _ _ Hrtc Hsound1 Hin0 Hs0 eq_refl)
    as ([_ Hone] & Hin & s' & Hs' & _ & Hnan).
  split; [exact Hin|]. split; [by exists s'|].
  {
    unfold one_timer_each in Hone.
    apply list_elem_of_In in Hin. rewrite <- Hone in Hin.
    apply list_elem_of_fmap in Hin as ([d r] & Heq & Hel). simpl in Heq. subst r.
    exists d. by apply list_elem_of_In. }
Qed.

(** X16. A renewal postpones the removal. After [renewSession] adds
    [extra] to the expiry date [e] of a live session, the timer of the
    session firing before [e + extra] leaves the session live and sets a
    timer for what is left, [e + extra - now], so that the new timer is due
    at the new expiry date; firing at [e + extra] or later removes the
    session, and no cookie leads to it any more. *)
Theorem renewSession_postpones_expiry (st : State) (sid : string) (extra : Z)
    (r : ref) (s : Session) (e : Z) (i : nat) (d : num) (now : Z) :
  timers_sound st ->
  session_with_id st sid = Some r ->
  store st !! r = Some s ->
  expiryDate s = Fin e ->
  timers st !! i = Some (d, r) ->
  let renewed := snd (renewSession sid extra st) in
  store renewed !! r = Some (extendSessionLife s extra) /\
  (now < e + extra ->
   sessions (fire i now renewed) = sessions st /\
   timers (fire i now renewed)
   = (delete i (timers st) ++ [(Fin (e + extra - now), r)])%list) /\
  (e + extra <= now ->
   ~ In r (sessions (fire i now renewed)) /\
   (forall r', r' <> r ->
      (In r' (sessions (fire i now renewed)) <-> In r' (sessions st))) /\
   timers (fire i now renewed) = delete i (timers st) /\
   forall sessionCookie m,
     findSession (fire i now renewed) sessionCookie = Normal (Some m) ->
     session m <> r).
Proof.
  intros Hsound Hsid Hs He Hi renewed.
  assert (Hren : renewed = call_extendSessionLife r extra st).
  { unfold renewed, renewSession. by rewrite Hsid. }
  assert (Hs' : store renewed !! r = Some (extendSessionLife s extra)).
  { rewrite Hren. unfold call_extendSessionLife. simpl.
    by rewrite list_lookup_alter_eq, Hs. }
  assert (Hi' : timers renewed !! i = Some (d, r)) by (by rewrite Hren).
  assert (Hse : sessions renewed = sessions st) by (by rewrite Hren).
  assert (Hti : timers renewed = timers st) by (by rewrite Hren).
  destruct (timer_target_live st i d r Hsound Hi) as [Hin _].
  destruct Hsound as [[_ Hnd] _].
  destruct (fire_cases renewed i now d r _ Hi' Hs')
    as [Hstore [(Hd & Hse' & Hti')|(Hd & Hse' & Hti')]];
    unfold attemptSelfDestruct in Hd; simpl in Hd; rewrite He in Hd; simpl in Hd;
    destruct (Z.leb_spec (e + extra - now) 0) as [Hle|Hgt]; try discriminate.
  - split; [exact Hs'|]. split; [lia|]. intros _.
    rewrite Hse', Hti', Hse, Hti.
    destruct (splice1_indexOf (sessions st) r Hin Hnd) as [Hout Hrest].
    split; [exact Hout|]. split; [exact Hrest|]. split; [reflexivity|].
    intros sessionCookie m Hm Heq.
    apply findSession_live in Hm. rewrite Hse', Hse, Heq in Hm. contradiction.
  - split; [exact Hs'|]. split; [|lia]. intros _.
    rewrite Hse', Hti', Hse, Hti. split; [reflexivity|].
    simpl. by rewrite He.
Qed.

End Timers.

(** ** Clients added through the module *)
Section AddClient.
Context {P : Platform}.
Import Spec Process.

(** The session the lookup by ID finds is live and carries the ID. *)
Lemma session_with_id_live (st : State) (sid : string) (r : ref) :
  session_with_id st sid = Some r ->
  In r (sessions st) /\ exists s, store st !! r = Some s /\ sessionID s = sid.
Proof.
  unfold session_with_id. intros Hhead.
  destruct (List.filter _ (sessions st)) as [|x l] eqn:Hf; [discriminate|].
  simpl in Hhead. injection Hhead as ->.
  assert (Hx : In r (List.filter (sessionID_is st (Some (JStr sid))) (sessions st)))
    by (rewrite Hf; by left).
  apply List.filter_In in Hx as [Hin Hm]. split; [exact Hin|].
  unfold sessionID_is in Hm. destruct (store st !! r) as [s|]; [|discriminate].
  exists s. split; [reflexivity|]. simpl in Hm. by apply String.eqb_eq in Hm.
Qed.

(** X17. [addClient] with a session ID never throws. When no live session
    has the ID it returns null and changes nothing. Otherwise it returns the
    ciphertext of the cookie record of the ID and of the client ID drawn,
    the first live session of that ID has the new client at the end of its
    client list, and the other sessions, the list of live sessions, the
    timers and the secret are as before. *)
Theorem addClient_by_id (st : State) (sid cls : string) (dat : value) :
  let res := Mdsm.addClient {| nci_session := ByID sid; nci_clientClass := cls;
                               nci_clientData := dat |} st in
  (session_with_id st sid = None /\ res = (Normal None, st)) \/
  (exists r s,
     session_with_id st sid = Some r /\ In r (sessions st) /\
     store st !! r = Some s /\ sessionID s = sid /\
     fst res = Normal (Some (encrypt st
                 (JSON_stringify (cookieObj sid (randomHex (draws st)))))) /\
     store (snd res) !! r
     = Some {| sessionID := sid; expiryDate := expiryDate s;
               clientList := (clientList s ++
                 [{| clientID := randomHex (draws st); clientClass := cls;
                     clientData := dat |}])%list;
               validEndpoints := validEndpoints s;
               sessionData := sessionData s |} /\
     (forall r', r' <> r -> store (snd res) !! r' = store st !! r') /\
     sessions (snd res) = sessions st /\ timers (snd res) = timers st /\
     secret (snd res) = secret st).
Proof.
  intros res. unfold res, Mdsm.addClient. simpl.
  destruct (session_with_id st sid) as [r|] eqn:Hsid; [right | by left].
  destruct (session_with_id_live st sid r Hsid) as (Hin & s & Hs & Hid).
  exists r, s. unfold call_addClient. rewrite Hs. simpl.
  split; [reflexivity|]. split; [exact Hin|]. split; [reflexivity|].
  split; [exact Hid|]. rewrite Hid. split; [reflexivity|].
  split; [by rewrite list_lookup_insert_eq by (by eapply lookup_lt_Some)|].
  split; [|by repeat split].
  intros r' Hne. by rewrite list_lookup_insert_ne.
Qed.


End AddClient.

Section TimersExamples.
Import Reference Examples Process EventLoop.

Lemma timers_sound_st0 : timers_sound st0.
Proof.
  split; [split|]; [intros r [] | apply NoDup_nil_2 | by unfold one_timer_each].
Qed.

Lemma timers_sound_st1 : timers_sound st1.
Proof.
  split; [exact well_formed_st1 | by unfold one_timer_each].
Qed.

(** The session of [st1] is created, renewed by a second, and its timer
    fires at 10000. *)
Lemma run_keeps_timers_sound_witness :
  timers_sound (fire 0 10000 (snd (renewSession "a" 1000 st1))).
Proof.
  apply (run_keeps_timers_sound (P := Reference.platform) st0).
  - eapply rtc_l; [apply (run_createSession 0 info_a)|].
    eapply rtc_l; [apply (run_renewSession "a" 1000)|].
    apply rtc_once. apply run_fire.
  - exact timers_sound_st0.
Defined.

(** The timer of the session of [st1] fires at 10000. *)
Lemma session_leaves_only_by_expiry_witness :
  exists i now d s e,
    fire 0 10000 st1 = fire i now st1 /\ timers st1 !! i = Some (d, 0%nat) /\
    store st1 !! 0%nat = Some s /\ expiryDate s = Fin e /\ e <= now.
Proof.
  apply (session_leaves_only_by_expiry (P := Reference.platform) st1 (fire 0 10000 st1)).
  - exact timers_sound_st1.
  - apply run_fire.
  - vm_compute. tauto.
  - vm_compute. tauto.
Defined.

(** A session with no time-to-live, made after that of [st1]; then the
    timers of both fire at 20000. *)
Lemma session_without_ttl_never_leaves_witness :
  let st' := fire 0 20000 (fire 1 20000 (snd (createSession 5000 info_no_ttl st1))) in
  In (fst (createSession 5000 info_no_ttl st1)) (sessions st') /\
  (exists s', store st' !! fst (createSession 5000 info_no_ttl st1) = Some s' /\
              expiryDate s' = NaN) /\
  exists d, In (d, fst (createSession 5000 info_no_ttl st1)) (timers st').
Proof.
  apply (session_without_ttl_never_leaves (P := Reference.platform) 5000 info_no_ttl st1).
  - exact timers_sound_st1.
  - reflexivity.
  - eapply rtc_l; [apply (run_fire 1 20000)|]. apply rtc_once. apply run_fire.
Defined.

Lemma renewSession_postpones_expiry_witness :
  let renewed := snd (renewSession "a" 1000 st1) in
  store renewed !! 0%nat = Some (extendSessionLife session_a0 1000) /\
  (10000 < 10000 + 1000 ->
   sessions (fire 0 10000 renewed) = sessions st1 /\
   timers (fire 0 10000 renewed)
   = (delete 0%nat (timers st1) ++ [(Fin (10000 + 1000 - 10000), 0%nat)])%list) /\
  (10000 + 1000 <= 10000 ->
   ~ In 0%nat (sessions (fire 0 10000 renewed)) /\
   (forall r', r' <> 0%nat ->
      (In r' (sessions (fire 0 10000 renewed)) <-> In r' (sessions st1))) /\
   timers (fire 0 10000 renewed) = delete 0%nat (timers st1) /\
   forall sessionCookie m,
     findSession (fire 0 10000 renewed) sessionCookie = Normal (Some m) ->
     session m <> 0%nat).
Proof.
  apply (renewSession_postpones_expiry (P := Reference.platform)
           st1 "a" 1000 0%nat session_a0 10000 0%nat (Fin 10000) 10000).
  - exact timers_sound_st1.
  - reflexivity.
  - reflexivity.
  - reflexivity.
  - reflexivity.
Defined.


End TimersExamples.
